(** * Stroke curve builder of the signature components

    A shallow embedding of the touch-point-to-curve logic of
    [PanResponderSignature] (src/components/PanResponderSignature.tsx) and
    [CustomSignature] (src/components/CustomSignature.tsx), of
    [CanvasSignature] (src/components/CanvasSignature.tsx), which draws the
    same curves on a canvas, and of the screens that host the components
    and export their path data.

    - A JavaScript [number] is an IEEE-754 binary64 value: Rocq's primitive
      [float], with [+] and [/] the primitive operations.
    - [`${v}`] on a number is [Number::toString] of the JavaScript runtime.
      It is not code of the components, so the development is parametric
      in a function [toString : float -> string].
    - A React component instance is its rendered [useState] values plus its
      [useRef] cells.  An event handler is a closure over the rendered
      values: it reads them, mutates refs at once, queues state updates and
      may call [onSignatureChange].  The queued updates are applied, in
      order, by the next render.  A touch event of a [PanResponder] is
      followed by a render, so the next one is handled by the closures of
      that render.  The callbacks of the pan gesture of [CustomSignature]
      pass through [runOnJS]: statements about it are made for one callback
      on a rendered state, for runs of point updates, which do not read the
      state, and for callbacks handled together on one render.
    - Reading a property of [undefined] throws a [TypeError]; handlers
      therefore run in a state-and-exception monad. *)

From Stdlib Require Import String Ascii List Bool Arith Lia ZArith Floats.
From Stdlib Require Import DecimalString.
Import ListNotations.
Open Scope string_scope.

(** ** JavaScript values *)

(** [interface Point { x: number; y: number }] *)
Record Point : Set := mkPoint { x : float; y : float }.

(** A string is falsy exactly when it is empty. *)
Definition truthy (s : string) : bool := negb (s =? "").

(** [Array.prototype.join] on an array of strings. *)
Definition join (sep : string) (a : list string) : string := String.concat sep a.

(** [(a + b) / 2] on numbers. *)
Definition half_sum (a b : float) : float := ((a + b) / 2)%float.

(** ** Event handlers: state, queued updates and exceptions *)

Module Handler.

(** A handler over an effect record [E]: [None] is an uncaught exception. *)
Definition t (E A : Type) : Type := E -> option (A * E).

Definition ret {E A} (a : A) : t E A := fun e => Some (a, e).

Definition bind {E A B} (m : t E A) (k : A -> t E B) : t E B :=
  fun e => match m e with
           | Some (a, e') => k a e'
           | None => None
           end.

Definition throw {E A} : t E A := fun _ => None.

Definition gets {E A} (f : E -> A) : t E A := fun e => Some (f e, e).

Definition modify {E} (f : E -> E) : t E unit := fun e => Some (tt, f e).

(** The value of an expression that may throw. *)
Definition eval {E A} (v : option A) : t E A :=
  match v with
  | Some a => ret a
  | None => throw
  end.

End Handler.

Declare Scope handler_scope.
Delimit Scope handler_scope with handler.
Notation "x <- m ;; k" := (Handler.bind m (fun x => k))
  (at level 61, m at next level, right associativity) : handler_scope.
Notation "m ;; k" := (Handler.bind m (fun _ => k))
  (at level 61, right associativity) : handler_scope.

(** ** PanResponderSignature *)

Module PanResponderSignature.

(** The [nativeEvent] of a [GestureResponderEvent], as far as it is read. *)
Record GestureResponderEvent : Set :=
  { locationX : float; locationY : float }.

(** Of the props only [onSignatureChange] takes part in the logic.  It is
    optional: the field tells whether the host supplied it. *)
Record Props : Set := { onSignatureChange : bool }.

(** The three [useState] cells. *)
Record State : Set :=
  { completedPaths : list string;
    currentPath : string;
    isDrawing : bool }.

Definition initialState : State :=
  {| completedPaths := []; currentPath := ""; isDrawing := false |}.

(** A queued call of a state setter. *)
Inductive Update : Type :=
| SetCompletedPaths (updater : list string -> list string)
| SetCurrentPath (value : string)
| SetIsDrawing (value : bool).

Definition applyUpdate (s : State) (u : Update) : State :=
  match u with
  | SetCompletedPaths f =>
      {| completedPaths := f (completedPaths s);
         currentPath := currentPath s; isDrawing := isDrawing s |}
  | SetCurrentPath v =>
      {| completedPaths := completedPaths s;
         currentPath := v; isDrawing := isDrawing s |}
  | SetIsDrawing v =>
      {| completedPaths := completedPaths s;
         currentPath := currentPath s; isDrawing := v |}
  end.

(** What a handler acts on: the ref [currentPoints], the queue of state
    updates, and the arguments [onSignatureChange] was called with. *)
Record Effects : Type :=
  { ref : list Point;
    updates : list Update;
    calls : list string }.

Definition EventHandler := Handler.t Effects.

Definition setRef (v : list Point) : EventHandler unit :=
  Handler.modify (fun e =>
    {| ref := v; updates := updates e; calls := calls e |}).

Definition pushRef (p : Point) : EventHandler unit :=
  Handler.modify (fun e =>
    {| ref := ref e ++ [p]; updates := updates e; calls := calls e |}).

Definition enqueue (u : Update) : EventHandler unit :=
  Handler.modify (fun e =>
    {| ref := ref e; updates := updates e ++ [u]; calls := calls e |}).

Definition setCompletedPaths f := enqueue (SetCompletedPaths f).
Definition setCurrentPath v := enqueue (SetCurrentPath v).
Definition setIsDrawing v := enqueue (SetIsDrawing v).

(** [onSignatureChange?.(arg)] *)
Definition callOnSignatureChange (props : Props) (arg : string) : EventHandler unit :=
  if onSignatureChange props
  then Handler.modify (fun e =>
         {| ref := ref e; updates := updates e; calls := calls e ++ [arg] |})
  else Handler.ret tt.

Section WithNumberToString.

Variable toString : float -> string.

Local Open Scope handler_scope.

(** One turn of the [for] loop of [pointsToSVGPath]; [path] is [None]
    once an index was out of range. *)
Definition loopBody (points : list Point) (path : option string) (i : nat)
  : option string :=
  match path, nth_error points (i - 1), nth_error points i with
  | Some path, Some prevPoint, Some currentPoint =>
      let controlX := half_sum (x prevPoint) (x currentPoint) in
      let controlY := half_sum (y prevPoint) (y currentPoint) in
      Some (path ++ "Q" ++ toString (x prevPoint) ++ "," ++ toString (y prevPoint)
                 ++ " " ++ toString controlX ++ "," ++ toString controlY)
  | _, _, _ => None
  end.

(** [pointsToSVGPath]; the loop [for (let i = 1; i < points.length; i++)]
    runs over the indices [1 .. points.length - 1]. *)
Definition pointsToSVGPath (points : list Point) : option string :=
  if (List.length points =? 0)%nat then Some ""
  else
    match nth_error points 0 with
    | None => None
    | Some first =>
        if (List.length points =? 1)%nat
        then Some ("M" ++ toString (x first) ++ "," ++ toString (y first))
        else
          let path := "M" ++ toString (x first) ++ "," ++ toString (y first) in
          fold_left (loopBody points) (seq 1 (List.length points - 1)) (Some path)
    end.

Definition addPoint (x y : float) : EventHandler unit :=
  let newPoint := mkPoint x y in
  pushRef newPoint ;;
  points <- Handler.gets ref ;;
  pathData <- Handler.eval (pointsToSVGPath points) ;;
  setCurrentPath pathData.

Definition startStroke (event : GestureResponderEvent) : EventHandler unit :=
  setIsDrawing true ;;
  setRef [] ;;
  addPoint (locationX event) (locationY event).

Definition continueStroke (st : State) (event : GestureResponderEvent)
  : EventHandler unit :=
  if negb (isDrawing st) then Handler.ret tt
  else addPoint (locationX event) (locationY event).

Definition endStroke (props : Props) (st : State) : EventHandler unit :=
  if negb (isDrawing st) || (currentPath st =? "") then Handler.ret tt
  else
    setIsDrawing false ;;
    setCompletedPaths (fun prev => (prev ++ [currentPath st])%list) ;;
    let allPaths := (completedPaths st ++ [currentPath st])%list in
    callOnSignatureChange props (join " " allPaths) ;;
    setCurrentPath "" ;;
    setRef [].

Definition clearSignature : EventHandler unit :=
  setCompletedPaths (fun _ => []) ;;
  setCurrentPath "" ;;
  setRef [] ;;
  setIsDrawing false.

Definition getSignatureData (st : State) : string :=
  let allPaths :=
    if truthy (currentPath st)
    then (completedPaths st ++ [currentPath st])%list
    else completedPaths st in
  join " " allPaths.

(** A mounted component: the rendered state and the ref. *)
Record Component : Set :=
  { state : State;
    currentPoints : list Point }.

Definition mount : Component :=
  {| state := initialState; currentPoints := [] |}.

(** The callbacks of [PanResponder.create], and a call of
    [clearSignature]. *)
Inductive Event : Set :=
| onPanResponderGrant (event : GestureResponderEvent)
| onPanResponderMove (event : GestureResponderEvent)
| onPanResponderRelease
| onPanResponderTerminate
| callClearSignature.

Definition handlerOf (props : Props) (st : State) (ev : Event) : EventHandler unit :=
  match ev with
  | onPanResponderGrant event => startStroke event
  | onPanResponderMove event => continueStroke st event
  | onPanResponderRelease => endStroke props st
  | onPanResponderTerminate => endStroke props st
  | callClearSignature => clearSignature
  end.

(** Handle one event with the closures of the current render, then
    render again.  The result is the component after that render and the
    arguments of the [onSignatureChange] calls made, oldest first; [None]
    when the handler threw. *)
Definition dispatch (props : Props) (c : Component) (ev : Event)
  : option (Component * list string) :=
  match handlerOf props (state c) ev
          {| ref := currentPoints c; updates := []; calls := [] |} with
  | None => None
  | Some (_, e) =>
      Some ({| state := fold_left applyUpdate (updates e) (state c);
               currentPoints := ref e |},
            calls e)
  end.

Fixpoint run (props : Props) (c : Component) (evs : list Event)
  : option (Component * list string) :=
  match evs with
  | [] => Some (c, [])
  | ev :: rest =>
      match dispatch props c ev with
      | None => None
      | Some (c', called) =>
          match run props c' rest with
          | None => None
          | Some (c'', called') => Some (c'', (called ++ called')%list)
          end
      end
  end.

End WithNumberToString.

End PanResponderSignature.

(** ** CustomSignature *)

Module CustomSignature.

(** The fields of a pan gesture event that the component reads. *)
Record GestureEvent : Set := { event_x : float; event_y : float }.

(** Whether the host supplied the optional [onSignatureChange]. *)
Record Props : Set := { onSignatureChange : bool }.

(** The two [useState] cells. *)
Record State : Set :=
  { pathData : string;
    paths : list string }.

Definition initialState : State := {| pathData := ""; paths := [] |}.

(** A queued call of a state setter, with a value or with an updater. *)
Inductive Update : Type :=
| SetPathData (value : string)
| UpdatePathData (updater : string -> string)
| UpdatePaths (updater : list string -> list string).

Definition applyUpdate (s : State) (u : Update) : State :=
  match u with
  | SetPathData v => {| pathData := v; paths := paths s |}
  | UpdatePathData f => {| pathData := f (pathData s); paths := paths s |}
  | UpdatePaths f => {| pathData := pathData s; paths := f (paths s) |}
  end.

(** The ref [currentPath], the queue of state updates, and the arguments
    [onSignatureChange] was called with. *)
Record Effects : Type :=
  { ref : list Point;
    updates : list Update;
    calls : list string }.

Definition EventHandler := Handler.t Effects.

Definition setRef (v : list Point) : EventHandler unit :=
  Handler.modify (fun e =>
    {| ref := v; updates := updates e; calls := calls e |}).

Definition pushRef (p : Point) : EventHandler unit :=
  Handler.modify (fun e =>
    {| ref := ref e ++ [p]; updates := updates e; calls := calls e |}).

Definition enqueue (u : Update) : EventHandler unit :=
  Handler.modify (fun e =>
    {| ref := ref e; updates := updates e ++ [u]; calls := calls e |}).

(** [onSignatureChange?.(arg)] *)
Definition callOnSignatureChange (props : Props) (arg : string) : EventHandler unit :=
  if onSignatureChange props
  then Handler.modify (fun e =>
         {| ref := ref e; updates := updates e; calls := calls e ++ [arg] |})
  else Handler.ret tt.

Section WithNumberToString.

Variable toString : float -> string.

Local Open Scope handler_scope.

Definition addPoint (x0 y0 : float) : EventHandler unit :=
  pushRef (mkPoint x0 y0) ;;
  current <- Handler.gets ref ;;
  if (List.length current =? 1)%nat then
    let newPath := "M" ++ toString x0 ++ "," ++ toString y0 in
    enqueue (SetPathData newPath)
  else if (2 <=? List.length current)%nat then
    prevPoint <- Handler.eval (nth_error current (List.length current - 2)) ;;
    currentPoint <- Handler.eval (nth_error current (List.length current - 1)) ;;
    let controlX := half_sum (x prevPoint) (x currentPoint) in
    let controlY := half_sum (y prevPoint) (y currentPoint) in
    let newPathSegment :=
      "Q" ++ toString (x prevPoint) ++ "," ++ toString (y prevPoint)
          ++ " " ++ toString controlX ++ "," ++ toString controlY in
    enqueue (UpdatePathData (fun prev => prev ++ newPathSegment))
  else Handler.ret tt.

Definition finalizePath (props : Props) (st : State) : EventHandler unit :=
  if truthy (pathData st) then
    enqueue (UpdatePaths (fun prev => (prev ++ [pathData st])%list)) ;;
    let allPaths := join " " (paths st ++ [pathData st])%list in
    callOnSignatureChange props allPaths ;;
    enqueue (SetPathData "") ;;
    setRef []
  else Handler.ret tt.

(** A mounted component: the rendered state and the ref [currentPath]. *)
Record Component : Set :=
  { state : State;
    currentPath : list Point }.

Definition mount : Component :=
  {| state := initialState; currentPath := [] |}.

(** The callbacks of the pan gesture. *)
Inductive Event : Set :=
| onUpdate (event : GestureEvent)
| onEnd.

Definition handlerOf (props : Props) (st : State) (ev : Event) : EventHandler unit :=
  match ev with
  | onUpdate event => addPoint (event_x event) (event_y event)
  | onEnd => finalizePath props st
  end.

(** One callback handled on the closures of the current render, and the
    render after it. *)
Definition dispatch (props : Props) (c : Component) (ev : Event)
  : option (Component * list string) :=
  match handlerOf props (state c) ev
          {| ref := currentPath c; updates := []; calls := [] |} with
  | None => None
  | Some (_, e) =>
      Some ({| state := fold_left applyUpdate (updates e) (state c);
               currentPath := ref e |},
            calls e)
  end.

(** The run in which a render follows every callback.  The pan gesture
    does not promise that: its callbacks reach [addPoint] and
    [finalizePath] through [runOnJS], and several of them can be handled
    before the component renders again; see [runRenders]. *)
Fixpoint run (props : Props) (c : Component) (evs : list Event)
  : option (Component * list string) :=
  match evs with
  | [] => Some (c, [])
  | ev :: rest =>
      match dispatch props c ev with
      | None => None
      | Some (c', called) =>
          match run props c' rest with
          | None => None
          | Some (c'', called') => Some (c'', (called ++ called')%list)
          end
      end
  end.

(** The callbacks [evs], one after the other, all on the closures of the
    render [st]. *)
Fixpoint handleAll (props : Props) (st : State) (evs : list Event)
  : EventHandler unit :=
  match evs with
  | [] => Handler.ret tt
  | ev :: rest => handlerOf props st ev ;; handleAll props st rest
  end.

(** Several callbacks handled before the component renders again: all of
    them see the state of the current render; the ref changes at once; the
    queued updates are applied in order by the render that follows. *)
Definition dispatchAll (props : Props) (c : Component) (evs : list Event)
  : option (Component * list string) :=
  match handleAll props (state c) evs
          {| ref := currentPath c; updates := []; calls := [] |} with
  | None => None
  | Some (_, e) =>
      Some ({| state := fold_left applyUpdate (updates e) (state c);
               currentPath := ref e |},
            calls e)
  end.

(** A run given by the callbacks handled between one render and the next. *)
Fixpoint runRenders (props : Props) (c : Component) (batches : list (list Event))
  : option (Component * list string) :=
  match batches with
  | [] => Some (c, [])
  | evs :: rest =>
      match dispatchAll props c evs with
      | None => None
      | Some (c', called) =>
          match runRenders props c' rest with
          | None => None
          | Some (c'', called') => Some (c'', (called ++ called')%list)
          end
      end
  end.

End WithNumberToString.

End CustomSignature.

(** ** The curve path of the specification: a list of drawing commands

    The components build path data as text.  The specification describes a
    curve path as a list of move and quadratic-curve commands; this module
    states that description, to compare the text with. *)

Module CurvePath.

Inductive Command : Set :=
| MoveTo (p : Point)
| QuadraticCurveTo (anchor dest : Point).

Definition midpoint (p q : Point) : Point :=
  mkPoint (half_sum (x p) (x q)) (half_sum (y p) (y q)).

(** The curve commands of a stroke whose last consumed point is [prev]. *)
Fixpoint curves (prev : Point) (rest : list Point) : list Command :=
  match rest with
  | [] => []
  | p :: rest' => QuadraticCurveTo prev (midpoint prev p) :: curves p rest'
  end.

(** Nothing for no point, else a move to the first point and one curve
    for every later point. *)
Definition ofPoints (points : list Point) : list Command :=
  match points with
  | [] => []
  | first :: rest => MoveTo first :: curves first rest
  end.

Definition isMove (c : Command) : bool :=
  match c with MoveTo _ => true | QuadraticCurveTo _ _ => false end.

Definition isCurve (c : Command) : bool :=
  match c with MoveTo _ => false | QuadraticCurveTo _ _ => true end.

Section WithNumberToString.

Variable toString : float -> string.

(** SVG path data of one command: [M x,y] and [Q x1,y1 x,y]. *)
Definition svgCommand (c : Command) : string :=
  match c with
  | MoveTo p => "M" ++ toString (x p) ++ "," ++ toString (y p)
  | QuadraticCurveTo a d =>
      "Q" ++ toString (x a) ++ "," ++ toString (y a)
          ++ " " ++ toString (x d) ++ "," ++ toString (y d)
  end.

Fixpoint svg (cs : list Command) : string :=
  match cs with
  | [] => ""
  | c :: cs' => svgCommand c ++ svg cs'
  end.

End WithNumberToString.

End CurvePath.

(** ** Counting command letters in path data *)

(** The number of occurrences of the character [c] in [s]. *)
Fixpoint occurrences (c : ascii) (s : string) : nat :=
  match s with
  | EmptyString => 0
  | String a s' => (if Ascii.eqb a c then 1 else 0) + occurrences c s'
  end.

(** The characters [Number::toString] writes: decimal digits, sign, point,
    exponent mark and the letters of [Infinity] and [NaN]. *)
Definition numberChar (c : ascii) : bool :=
  existsb (Ascii.eqb c) (list_ascii_of_string "0123456789-+.eInfinityNaN").

Fixpoint allNumberChars (s : string) : bool :=
  match s with
  | EmptyString => true
  | String a s' => numberChar a && allNumberChars s'
  end.

(** ** A number format to run the components on *)

Module ExactDecimal.

(** The exact decimal expansion of a binary64 value, in positional
    notation without trailing zeros; [0], [-0], [NaN] and the infinities
    are written as JavaScript writes them.  On integers below 2^53 and on
    short binary fractions such as 2.5 or 123.25 this is the text that
    [Number::toString] gives.  It serves to run the components on sample
    strokes; the general theorems hold for every number format. *)

Definition natural (n : N) : string := NilEmpty.string_of_uint (N.to_uint n).

(** [t / 10^k] with the common factors of ten removed. *)
Fixpoint reduce (k : nat) (t : N) : nat * N :=
  match k with
  | O => (O, t)
  | S k' => if (t mod 10 =? 0)%N then reduce k' (t / 10)%N else (k, t)
  end.

(** The [k] digits of [f < 10^k], zeros in front included. *)
Definition fraction (k : nat) (f : N) : string :=
  match natural (10 ^ N.of_nat k + f) with
  | String _ digits => digits
  | EmptyString => ""
  end.

(** [m * 2^e] in decimal. *)
Definition magnitude (m : positive) (e : Z) : string :=
  match e with
  | Z0 => natural (Npos m)
  | Zpos p => natural (Npos m * 2 ^ Npos p)
  | Zneg p =>
      let (k, t) := reduce (Pos.to_nat p) (Npos m * 5 ^ Npos p) in
      let unit := (10 ^ N.of_nat k)%N in
      if (k =? 0)%nat then natural t
      else natural (t / unit) ++ "." ++ fraction k (t mod unit)
  end.

Definition toString (v : float) : string :=
  match Prim2SF v with
  | S754_zero _ => "0"
  | S754_infinity false => "Infinity"
  | S754_infinity true => "-Infinity"
  | S754_nan => "NaN"
  | S754_finite s m e => (if s then "-" else "") ++ magnitude m e
  end.

End ExactDecimal.

(** Touch events at the points of a stroke. *)
Definition pointOfTouch (event : PanResponderSignature.GestureResponderEvent) : Point :=
  mkPoint (PanResponderSignature.locationX event) (PanResponderSignature.locationY event).

Definition pointOfPan (event : CustomSignature.GestureEvent) : Point :=
  mkPoint (CustomSignature.event_x event) (CustomSignature.event_y event).

Definition touch (x0 y0 : float) : PanResponderSignature.GestureResponderEvent :=
  {| PanResponderSignature.locationX := x0; PanResponderSignature.locationY := y0 |}.

Definition pan (x0 y0 : float) : CustomSignature.GestureEvent :=
  {| CustomSignature.event_x := x0; CustomSignature.event_y := y0 |}.

(** The argument list of [onSignatureChange?.(payload)]. *)
Definition notification (supplied : bool) (payload : string) : list string :=
  if supplied then [payload] else [].

Module Shapes.

Section WithNumberToString.

Variable toString : float -> string.

(** A [PanResponderSignature] between strokes. *)
Definition atRest (completed : list string) : PanResponderSignature.Component :=
  {| PanResponderSignature.state :=
       {| PanResponderSignature.completedPaths := completed;
          PanResponderSignature.currentPath := "";
          PanResponderSignature.isDrawing := false |};
     PanResponderSignature.currentPoints := [] |}.

(** A [PanResponderSignature] in a stroke with the points [points]. *)
Definition drawing (completed : list string) (points : list Point)
  : PanResponderSignature.Component :=
  {| PanResponderSignature.state :=
       {| PanResponderSignature.completedPaths := completed;
          PanResponderSignature.currentPath :=
            CurvePath.svg toString (CurvePath.ofPoints points);
          PanResponderSignature.isDrawing := true |};
     PanResponderSignature.currentPoints := points |}.

(** A [CustomSignature] whose current stroke has the points [points]
    (none between strokes). *)
Definition sketch (completed : list string) (points : list Point)
  : CustomSignature.Component :=
  {| CustomSignature.state :=
       {| CustomSignature.pathData :=
            CurvePath.svg toString (CurvePath.ofPoints points);
          CustomSignature.paths := completed |};
     CustomSignature.currentPath := points |}.

End WithNumberToString.

End Shapes.

(** The event that ends a stroke: release, or termination when the touch is
    cancelled. *)
Definition strokeEnd (cancelled : bool) : PanResponderSignature.Event :=
  if cancelled
  then PanResponderSignature.onPanResponderTerminate
  else PanResponderSignature.onPanResponderRelease.

(** The events of one stroke: a start, the moves and the event ending it. *)
Definition strokeEvents (first : PanResponderSignature.GestureResponderEvent)
  (moves : list PanResponderSignature.GestureResponderEvent)
  (ending : PanResponderSignature.Event) : list PanResponderSignature.Event :=
  (PanResponderSignature.onPanResponderGrant first
   :: map PanResponderSignature.onPanResponderMove moves ++ [ending])%list.

Module PR := PanResponderSignature.
Module CS := CustomSignature.

(** ** CanvasSignature *)

Module CanvasSignature.

(** The props, with the defaults of the component filled in by the
    caller; [onSignatureChange] tells whether the host supplied it. *)
Record Props : Set :=
  { width : float;
    height : float;
    strokeColor : string;
    strokeWidth : float;
    backgroundColor : string;
    onSignatureChange : bool }.

(** What the component does to the canvas element and to its 2d context,
    property assignments included. *)
Inductive CanvasOp : Set :=
| SetCanvasWidth (v : float)
| SetCanvasHeight (v : float)
| GetContext2d
| SetStrokeStyle (v : string)
| SetLineWidth (v : float)
| SetLineCap (v : string)
| SetLineJoin (v : string)
| SetImageSmoothingEnabled (v : bool)
| SetFillStyle (v : string)
| FillRect (x0 y0 w h : float)
| ClearRect (x0 y0 w h : float)
| BeginPath
| MoveTo (x0 y0 : float)
| QuadraticCurveTo (cpx cpy x0 y0 : float)
| Stroke
| ToDataURL.

(** A canvas element handed to [handleCanvas]: all that matters is whether
    [getContext('2d')] gives a context. *)
Record Canvas : Set := { provides2d : bool }.

(** The 2d context held by [contextRef]. *)
Inductive Context : Set := Context2d.

(** The [useState] cell. *)
Record State : Set := { isDrawing : bool }.

Inductive Update : Set := SetIsDrawing (value : bool).

Definition applyUpdate (s : State) (u : Update) : State :=
  match u with
  | SetIsDrawing v => {| isDrawing := v |}
  end.

(** The three refs, the queue of state updates and the operations done on
    the canvas, oldest first. *)
Record Effects : Set :=
  { canvasRef : option Canvas;
    contextRef : option Context;
    lastPoint : option Point;
    updates : list Update;
    ops : list CanvasOp }.

Definition EventHandler := Handler.t Effects.

Definition setCanvasRef (v : option Canvas) : EventHandler unit :=
  Handler.modify (fun e =>
    {| canvasRef := v; contextRef := contextRef e; lastPoint := lastPoint e;
       updates := updates e; ops := ops e |}).

Definition setContextRef (v : option Context) : EventHandler unit :=
  Handler.modify (fun e =>
    {| canvasRef := canvasRef e; contextRef := v; lastPoint := lastPoint e;
       updates := updates e; ops := ops e |}).

Definition setLastPoint (v : option Point) : EventHandler unit :=
  Handler.modify (fun e =>
    {| canvasRef := canvasRef e; contextRef := contextRef e; lastPoint := v;
       updates := updates e; ops := ops e |}).

Definition setIsDrawing (v : bool) : EventHandler unit :=
  Handler.modify (fun e =>
    {| canvasRef := canvasRef e; contextRef := contextRef e;
       lastPoint := lastPoint e;
       updates := updates e ++ [SetIsDrawing v]; ops := ops e |}).

Definition perform (op : CanvasOp) : EventHandler unit :=
  Handler.modify (fun e =>
    {| canvasRef := canvasRef e; contextRef := contextRef e;
       lastPoint := lastPoint e;
       updates := updates e; ops := ops e ++ [op] |}).

Local Open Scope handler_scope.

Definition handleCanvas (props : Props) (canvas : option Canvas) : EventHandler unit :=
  match canvas with
  | None => Handler.ret tt
  | Some element =>
      setCanvasRef (Some element) ;;
      perform (SetCanvasWidth (width props)) ;;
      perform (SetCanvasHeight (height props)) ;;
      perform GetContext2d ;;
      if provides2d element then
        setContextRef (Some Context2d) ;;
        perform (SetStrokeStyle (strokeColor props)) ;;
        perform (SetLineWidth (strokeWidth props)) ;;
        perform (SetLineCap "round") ;;
        perform (SetLineJoin "round") ;;
        perform (SetImageSmoothingEnabled true) ;;
        perform (SetFillStyle (backgroundColor props)) ;;
        perform (FillRect 0 0 (width props) (height props))
      else Handler.ret tt
  end.

Definition startDrawing (x0 y0 : float) : EventHandler unit :=
  context <- Handler.gets contextRef ;;
  match context with
  | None => Handler.ret tt
  | Some _ =>
      setIsDrawing true ;;
      setLastPoint (Some (mkPoint x0 y0)) ;;
      perform BeginPath ;;
      perform (MoveTo x0 y0)
  end.

Definition continuDrawing (st : State) (x0 y0 : float) : EventHandler unit :=
  context <- Handler.gets contextRef ;;
  last <- Handler.gets lastPoint ;;
  match context, isDrawing st, last with
  | Some _, true, Some last =>
      let midX := half_sum (x last) x0 in
      let midY := half_sum (y last) y0 in
      perform (QuadraticCurveTo (x last) (y last) midX midY) ;;
      perform Stroke ;;
      setLastPoint (Some (mkPoint x0 y0))
  | _, _, _ => Handler.ret tt
  end.

(** [toDataURL()] is called at once; its promise hands the image to
    [onSignatureChange] later, outside the handler. *)
Definition endDrawing (props : Props) (st : State) : EventHandler unit :=
  context <- Handler.gets contextRef ;;
  match context, isDrawing st with
  | Some _, true =>
      setIsDrawing false ;;
      setLastPoint None ;;
      canvas <- Handler.gets canvasRef ;;
      match canvas with
      | Some _ => if onSignatureChange props then perform ToDataURL
                  else Handler.ret tt
      | None => Handler.ret tt
      end
  | _, _ => Handler.ret tt
  end.

Definition clearSignature (props : Props) : EventHandler unit :=
  context <- Handler.gets contextRef ;;
  match context with
  | Some _ =>
      perform (ClearRect 0 0 (width props) (height props)) ;;
      perform (SetFillStyle (backgroundColor props)) ;;
      perform (FillRect 0 0 (width props) (height props))
  | None => Handler.ret tt
  end.

(** A mounted component: the rendered state and the refs. *)
Record Component : Set :=
  { state : State;
    canvas : option Canvas;
    context : option Context;
    last : option Point }.

Definition mount : Component :=
  {| state := {| isDrawing := false |};
     canvas := None; context := None; last := None |}.

(** The callbacks of [PanResponder.create], and calls of [clearSignature]
    and [handleCanvas]. *)
Inductive Event : Set :=
| onPanResponderGrant (event : PanResponderSignature.GestureResponderEvent)
| onPanResponderMove (event : PanResponderSignature.GestureResponderEvent)
| onPanResponderRelease
| onPanResponderTerminate
| callClearSignature
| callHandleCanvas (element : option Canvas).

Definition handlerOf (props : Props) (st : State) (ev : Event) : EventHandler unit :=
  match ev with
  | onPanResponderGrant event =>
      startDrawing (PanResponderSignature.locationX event)
                   (PanResponderSignature.locationY event)
  | onPanResponderMove event =>
      continuDrawing st (PanResponderSignature.locationX event)
                        (PanResponderSignature.locationY event)
  | onPanResponderRelease => endDrawing props st
  | onPanResponderTerminate => endDrawing props st
  | callClearSignature => clearSignature props
  | callHandleCanvas element => handleCanvas props element
  end.

(** Handle one event, then render again: the component after the render
    and the canvas operations the handler did. *)
Definition dispatch (props : Props) (c : Component) (ev : Event)
  : option (Component * list CanvasOp) :=
  match handlerOf props (state c) ev
          {| canvasRef := canvas c; contextRef := context c;
             lastPoint := last c; updates := []; ops := [] |} with
  | None => None
  | Some (_, e) =>
      Some ({| state := fold_left applyUpdate (updates e) (state c);
               canvas := canvasRef e; context := contextRef e;
               last := lastPoint e |},
            ops e)
  end.

Fixpoint run (props : Props) (c : Component) (evs : list Event)
  : option (Component * list CanvasOp) :=
  match evs with
  | [] => Some (c, [])
  | ev :: rest =>
      match dispatch props c ev with
      | None => None
      | Some (c', done) =>
          match run props c' rest with
          | None => None
          | Some (c'', done') => Some (c'', (done ++ done')%list)
          end
      end
  end.

(** The canvas operations that draw one command of a curve path. *)
Definition opsOfCommand (cmd : CurvePath.Command) : list CanvasOp :=
  match cmd with
  | CurvePath.MoveTo p => [BeginPath; MoveTo (x p) (y p)]
  | CurvePath.QuadraticCurveTo a d =>
      [QuadraticCurveTo (x a) (y a) (x d) (y d); Stroke]
  end.

End CanvasSignature.

Module CV := CanvasSignature.

(** ** The screens that host the components *)

(** The double quote and the line feed, which the SVG export writes. *)
Definition quote : string := String (Ascii.ascii_of_nat 34) "".
Definition newline : string := String (Ascii.ascii_of_nat 10) "".

(** [Dimensions.get('window')] *)
Record Window : Set := { screenWidth : float; screenHeight : float }.

(** What a screen does to the host: [Clipboard.setString(text)] and
    [Alert.alert(title, message)]. *)
Inductive HostCall : Set :=
| ClipboardSetString (text : string)
| AlertAlert (title message : string).

(** The callbacks of a [PanResponder] that a screen can trigger by touch. *)
Inductive PanEvent : Set :=
| panGrant (event : PanResponderSignature.GestureResponderEvent)
| panMove (event : PanResponderSignature.GestureResponderEvent)
| panRelease
| panTerminate.

Definition panResponderEvent (ev : PanEvent) : PanResponderSignature.Event :=
  match ev with
  | panGrant event => PanResponderSignature.onPanResponderGrant event
  | panMove event => PanResponderSignature.onPanResponderMove event
  | panRelease => PanResponderSignature.onPanResponderRelease
  | panTerminate => PanResponderSignature.onPanResponderTerminate
  end.

(** *** PanResponderSignatureScreen *)

Module PanResponderSignatureScreen.

Section WithNumberToString.

Variable toString : float -> string.
Variable window : Window.

Definition signatureWidth : float := (screenWidth window - 40)%float.
(** [screenHeight * 0.6]; the literal is the binary64 value of 0.6. *)
Definition signatureHeight : float :=
  (screenHeight window * 0x1.3333333333333p-1)%float.

(** The screen: its [useState] cell and the component it renders, to which
    it passes [handleSignatureChange] as [onSignatureChange]. *)
Record Screen : Set :=
  { signatureData : string;
    signature : PanResponderSignature.Component }.

Definition mount : Screen :=
  {| signatureData := ""; signature := PanResponderSignature.mount |}.

(** [handleSignatureChange]: the queued [setSignatureData(data)], applied
    to the current value. *)
Definition handleSignatureChange (current data : string) : string := data.

(** [clearSignature]: [setSignatureData('')]; the component is not told. *)
Definition clearSignature (s : Screen) : Screen :=
  {| signatureData := ""; signature := signature s |}.

Definition copySVG (s : Screen) : list HostCall :=
  if truthy (signatureData s) then
    let svgData :=
      "<svg xmlns=" ++ quote ++ "http://www.w3.org/2000/svg" ++ quote
      ++ " width=" ++ quote ++ toString signatureWidth ++ quote
      ++ " height=" ++ quote ++ toString signatureHeight ++ quote
      ++ " viewBox=" ++ quote ++ "0 0 " ++ toString signatureWidth ++ " "
      ++ toString signatureHeight ++ quote ++ ">" ++ newline
      ++ "  <path d=" ++ quote ++ signatureData s ++ quote
      ++ " stroke=" ++ quote ++ "#FF9800" ++ quote
      ++ " stroke-width=" ++ quote ++ "4" ++ quote
      ++ " fill=" ++ quote ++ "none" ++ quote
      ++ " stroke-linecap=" ++ quote ++ "round" ++ quote
      ++ " stroke-linejoin=" ++ quote ++ "round" ++ quote ++ "/>" ++ newline
      ++ "</svg>" in
    [ClipboardSetString svgData; AlertAlert "Success" "SVG copied to clipboard!"]
  else [AlertAlert "No Signature" "Please draw a signature first."].

(** A touch on the signature area, and presses of Copy SVG and Clear.
    View Data, which only shows an alert, is left out. *)
Inductive Event : Set :=
| touchSignature (ev : PanEvent)
| pressCopySVG
| pressClear.

(** One event and the render after it.  A touch is handled by the
    component, whose calls of [onSignatureChange] run
    [handleSignatureChange] in order. *)
Definition dispatch (s : Screen) (ev : Event) : option (Screen * list HostCall) :=
  match ev with
  | touchSignature pan =>
      match PanResponderSignature.dispatch toString
              {| PanResponderSignature.onSignatureChange := true |}
              (signature s) (panResponderEvent pan) with
      | None => None
      | Some (c, called) =>
          Some ({| signatureData :=
                     fold_left handleSignatureChange called (signatureData s);
                   signature := c |}, [])
      end
  | pressCopySVG => Some (s, copySVG s)
  | pressClear => Some (clearSignature s, [])
  end.

Fixpoint run (s : Screen) (evs : list Event) : option (Screen * list HostCall) :=
  match evs with
  | [] => Some (s, [])
  | ev :: rest =>
      match dispatch s ev with
      | None => None
      | Some (s', done) =>
          match run s' rest with
          | None => None
          | Some (s'', done') => Some (s'', (done ++ done')%list)
          end
      end
  end.

End WithNumberToString.

End PanResponderSignatureScreen.

(** *** GestureHandlerSignatureScreen *)

Module GestureHandlerSignatureScreen.

Section WithNumberToString.

Variable toString : float -> string.
Variable window : Window.

Definition signatureWidth : float := (screenWidth window - 40)%float.
(** [screenHeight * 0.6]; the literal is the binary64 value of 0.6. *)
Definition signatureHeight : float :=
  (screenHeight window * 0x1.3333333333333p-1)%float.

Record Screen : Set :=
  { signatureData : string;
    signature : CustomSignature.Component }.

Definition mount : Screen :=
  {| signatureData := ""; signature := CustomSignature.mount |}.

Definition handleSignatureChange (current data : string) : string := data.

Definition clearSignature (s : Screen) : Screen :=
  {| signatureData := ""; signature := signature s |}.

Definition copySVG (s : Screen) : list HostCall :=
  if truthy (signatureData s) then
    let svgData :=
      "<svg xmlns=" ++ quote ++ "http://www.w3.org/2000/svg" ++ quote
      ++ " width=" ++ quote ++ toString signatureWidth ++ quote
      ++ " height=" ++ quote ++ toString signatureHeight ++ quote
      ++ " viewBox=" ++ quote ++ "0 0 " ++ toString signatureWidth ++ " "
      ++ toString signatureHeight ++ quote ++ ">" ++ newline
      ++ "  <path d=" ++ quote ++ signatureData s ++ quote
      ++ " stroke=" ++ quote ++ "#9C27B0" ++ quote
      ++ " stroke-width=" ++ quote ++ "4" ++ quote
      ++ " fill=" ++ quote ++ "none" ++ quote
      ++ " stroke-linecap=" ++ quote ++ "round" ++ quote
      ++ " stroke-linejoin=" ++ quote ++ "round" ++ quote ++ "/>" ++ newline
      ++ "</svg>" in
    [ClipboardSetString svgData; AlertAlert "Success" "SVG copied to clipboard!"]
  else [AlertAlert "No Signature" "Please draw a signature first."].

(** A pan gesture callback of the component, and presses of Copy SVG and
    Clear.  View Data, which only shows an alert, is left out. *)
Inductive Event : Set :=
| gesture (ev : CustomSignature.Event)
| pressCopySVG
| pressClear.

Definition dispatch (s : Screen) (ev : Event) : option (Screen * list HostCall) :=
  match ev with
  | gesture pan =>
      match CustomSignature.dispatch toString
              {| CustomSignature.onSignatureChange := true |}
              (signature s) pan with
      | None => None
      | Some (c, called) =>
          Some ({| signatureData :=
                     fold_left handleSignatureChange called (signatureData s);
                   signature := c |}, [])
      end
  | pressCopySVG => Some (s, copySVG s)
  | pressClear => Some (clearSignature s, [])
  end.

Fixpoint run (s : Screen) (evs : list Event) : option (Screen * list HostCall) :=
  match evs with
  | [] => Some (s, [])
  | ev :: rest =>
      match dispatch s ev with
      | None => None
      | Some (s', done) =>
          match run s' rest with
          | None => None
          | Some (s'', done') => Some (s'', (done ++ done')%list)
          end
      end
  end.

End WithNumberToString.

End GestureHandlerSignatureScreen.

(** *** SignatureComparisonScreen: the signature data of the four kinds *)

Module SignatureComparisonScreen.

(** [keyof SignatureData] *)
Inductive Kind : Set := Skia | Canvas | PanResponder | GestureHandler.

(** [interface SignatureData] *)
Record SignatureData : Set :=
  { skia : string;
    canvas : string;
    panResponder : string;
    gestureHandler : string }.

(** The initial [useState] value, also what [clearAllSignatures] sets. *)
Definition empty : SignatureData :=
  {| skia := ""; canvas := ""; panResponder := ""; gestureHandler := "" |}.

(** [signatureData[type]] *)
Definition get (type : Kind) (d : SignatureData) : string :=
  match type with
  | Skia => skia d
  | Canvas => canvas d
  | PanResponder => panResponder d
  | GestureHandler => gestureHandler d
  end.

(** The updater [prev => ({...prev, [type]: data})] that
    [handleSignatureChange] queues. *)
Definition handleSignatureChange (type : Kind) (data : string)
  (prev : SignatureData) : SignatureData :=
  match type with
  | Skia =>
      {| skia := data; canvas := canvas prev;
         panResponder := panResponder prev; gestureHandler := gestureHandler prev |}
  | Canvas =>
      {| skia := skia prev; canvas := data;
         panResponder := panResponder prev; gestureHandler := gestureHandler prev |}
  | PanResponder =>
      {| skia := skia prev; canvas := canvas prev;
         panResponder := data; gestureHandler := gestureHandler prev |}
  | GestureHandler =>
      {| skia := skia prev; canvas := canvas prev;
         panResponder := panResponder prev; gestureHandler := data |}
  end.

(** What the screen's state setter is called with. *)
Inductive Update : Set :=
| Changed (type : Kind) (data : string)
| ClearedAll.

Definition applyUpdate (d : SignatureData) (u : Update) : SignatureData :=
  match u with
  | Changed type data => handleSignatureChange type data d
  | ClearedAll => empty
  end.

Definition kind_eqb (a b : Kind) : bool :=
  match a, b with
  | Skia, Skia | Canvas, Canvas | PanResponder, PanResponder
  | GestureHandler, GestureHandler => true
  | _, _ => false
  end.

(** The data an update list leaves for [type], read from its end: the
    latest change of [type] unless a clear came after it. *)
Fixpoint latest (type : Kind) (newestFirst : list Update) (before : string) : string :=
  match newestFirst with
  | [] => before
  | ClearedAll :: _ => ""
  | Changed type' data :: older =>
      if kind_eqb type' type then data else latest type older before
  end.

End SignatureComparisonScreen.

Module SCS := SignatureComparisonScreen.

Module PRS := PanResponderSignatureScreen.
Module GHS := GestureHandlerSignatureScreen.

(** ** Strokes and the characters of path data *)

(** A stroke as a screen delivers it: the start, the moves, and whether it
    ends by termination. *)
Record Stroke : Set :=
  { strokeStart : PanResponderSignature.GestureResponderEvent;
    strokeMoves : list PanResponderSignature.GestureResponderEvent;
    strokeCancelled : bool }.

Definition strokePoints (s : Stroke) : list Point :=
  map pointOfTouch (strokeStart s :: strokeMoves s).

(** The events of a stroke in [PanResponderSignature]. *)
Definition panResponderStroke (s : Stroke) : list PanResponderSignature.Event :=
  strokeEvents (strokeStart s) (strokeMoves s) (strokeEnd (strokeCancelled s)).

(** The serialized drawings after one, two, ... of the paths [paths] were
    added to [completed]. *)
Fixpoint cumulative (completed : list string) (paths : list string) : list string :=
  match paths with
  | [] => []
  | path :: rest =>
      join " " (completed ++ [path]) :: cumulative (completed ++ [path]) rest
  end.

(** The characters of path data: the command letters, the separators and
    what numbers are written with. *)
Definition pathChar (c : ascii) : bool :=
  numberChar c || existsb (Ascii.eqb c) (list_ascii_of_string "MQ, ").

Fixpoint allPathChars (s : string) : bool :=
  match s with
  | EmptyString => true
  | String a s' => pathChar a && allPathChars s'
  end.

(** The path data of a stroke, as a command list written out. *)
Definition strokePathData (toString : float -> string) (s : Stroke) : string :=
  CurvePath.svg toString (CurvePath.ofPoints (strokePoints s)).

(** [path] is what [pointsToSVGPath] returns for some stroke with a point. *)
Definition isStrokePath (toString : float -> string) (path : string) : Prop :=
  exists points : list Point,
    points <> []
    /\ PanResponderSignature.pointsToSVGPath toString points = Some path.


(** * Properties *)

Example exactDecimal_samples :
  map ExactDecimal.toString
      [0; 10; 5; 2.5; 0.0625; (-7.5); 123.25; 1024; (-0); 0.5]%float
  = ["0"; "10"; "5"; "2.5"; "0.0625"; "-7.5"; "123.25"; "1024"; "0"; "0.5"].
Proof. vm_compute. reflexivity. Qed.

Example half_sum_samples :
  half_sum 0 10 = 5%float /\ half_sum 10 10 = 10%float /\ half_sum 1 2 = 1.5%float.
Proof. repeat split; reflexivity. Qed.

(** ** Strings *)

Lemma append_assoc (a b c : string) : (a ++ b) ++ c = a ++ b ++ c.
Proof. induction a as [| ch a IH]; simpl; [reflexivity | now rewrite IH]. Qed.

Lemma append_empty_r (a : string) : a ++ "" = a.
Proof. induction a as [| ch a IH]; simpl; [reflexivity | now rewrite IH]. Qed.

(** Joining one more string puts it last, after a separator if anything
    came before. *)
Lemma join_snoc (sep : string) (a : list string) (s : string) :
  join sep (a ++ [s])
  = match a with
    | [] => s
    | _ :: _ => join sep a ++ sep ++ s
    end.
Proof.
  unfold join. induction a as [| s1 a IH]; [reflexivity |].
  cbn [app String.concat]. destruct a as [| s2 a].
  - reflexivity.
  - cbn [app] in *. rewrite IH. now rewrite !append_assoc.
Qed.

Lemma occurrences_append (c : ascii) (a b : string) :
  occurrences c (a ++ b) = occurrences c a + occurrences c b.
Proof. induction a as [| ch a IH]; simpl; [reflexivity | rewrite IH; lia]. Qed.

Lemma allNumberChars_append (a b : string) :
  allNumberChars (a ++ b) = allNumberChars a && allNumberChars b.
Proof.
  induction a as [| ch a IH]; simpl; [reflexivity |].
  now rewrite IH, andb_assoc.
Qed.

Lemma numberChar_not (c a : ascii) :
  numberChar c = false -> numberChar a = true -> Ascii.eqb a c = false.
Proof.
  intros Hc Ha. destruct (Ascii.eqb_spec a c) as [-> |]; [congruence | reflexivity].
Qed.

Lemma allNumberChars_occurrences (c : ascii) (s : string) :
  numberChar c = false -> allNumberChars s = true -> occurrences c s = 0.
Proof.
  intros Hc. induction s as [| a s IH]; simpl; [reflexivity |].
  intros H. apply andb_prop in H as [Ha Hs].
  now rewrite (numberChar_not c a Hc Ha), IH.
Qed.

(** ** The exact decimal format writes number characters only *)

Lemma string_of_uint_numberChars (u : Decimal.uint) :
  allNumberChars (NilEmpty.string_of_uint u) = true.
Proof. induction u; simpl; auto. Qed.

Lemma natural_numberChars (n : N) : allNumberChars (ExactDecimal.natural n) = true.
Proof. apply string_of_uint_numberChars. Qed.

Lemma fraction_numberChars (k : nat) (f : N) :
  allNumberChars (ExactDecimal.fraction k f) = true.
Proof.
  unfold ExactDecimal.fraction.
  pose proof (natural_numberChars (10 ^ N.of_nat k + f)) as H.
  destruct (ExactDecimal.natural _) as [| a s]; [reflexivity |].
  simpl in H. now apply andb_prop in H.
Qed.

Lemma magnitude_numberChars (m : positive) (e : Z) :
  allNumberChars (ExactDecimal.magnitude m e) = true.
Proof.
  destruct e as [| p | p]; simpl; try apply natural_numberChars.
  destruct (ExactDecimal.reduce _ _) as [k t].
  cbv zeta. destruct (k =? 0)%nat; [apply natural_numberChars |].
  rewrite allNumberChars_append, natural_numberChars.
  cbn [append allNumberChars]. now rewrite fraction_numberChars.
Qed.

Lemma exactDecimal_numberChars (v : float) :
  allNumberChars (ExactDecimal.toString v) = true.
Proof.
  unfold ExactDecimal.toString.
  destruct (Prim2SF v) as [s | [|] | | s m e]; try reflexivity.
  rewrite allNumberChars_append, magnitude_numberChars.
  now destruct s.
Qed.

(** ** The curve segment generator *)

Section CurveSegmentGenerator.

Variable toString : float -> string.

Import PanResponderSignature CurvePath.

Lemma loopBody_curve (done rest : list Point) (prev q : Point) (path : string) :
  loopBody toString (done ++ prev :: q :: rest) (Some path) (S (List.length done))
  = Some (path ++ svgCommand toString (QuadraticCurveTo prev (midpoint prev q))).
Proof.
  unfold loopBody.
  replace (S (List.length done) - 1) with (List.length done) by lia.
  rewrite (nth_error_app2 done) by lia. rewrite Nat.sub_diag.
  rewrite (nth_error_app2 done) by lia.
  replace (S (List.length done) - List.length done) with 1 by lia.
  reflexivity.
Qed.

Lemma loop_curves (rest done : list Point) (prev : Point) (path : string) :
  fold_left (loopBody toString (done ++ prev :: rest))
            (seq (S (List.length done)) (List.length rest)) (Some path)
  = Some (path ++ svg toString (curves prev rest)).
Proof.
  revert done prev path.
  induction rest as [| q rest IH]; intros done prev path.
  - simpl. now rewrite append_empty_r.
  - cbn [List.length seq fold_left]. rewrite loopBody_curve.
    replace (done ++ prev :: q :: rest)%list with ((done ++ [prev]) ++ q :: rest)%list
      by (rewrite <- app_assoc; reflexivity).
    replace (S (S (List.length done))) with (S (List.length (done ++ [prev])))
      by (rewrite length_app; simpl; lia).
    rewrite IH. rewrite append_assoc. reflexivity.
Qed.

(** The path data is the text of the command list, for every buffer. *)
Lemma pointsToSVGPath_commands (points : list Point) :
  pointsToSVGPath toString points = Some (svg toString (ofPoints points)).
Proof.
  destruct points as [| first rest]; [reflexivity |].
  unfold pointsToSVGPath. simpl List.length. simpl nth_error.
  cbn [Nat.eqb]. destruct rest as [| q rest].
  - simpl. now rewrite append_empty_r.
  - cbn [List.length Nat.eqb].
    replace (S (S (List.length rest)) - 1) with (List.length (q :: rest))
      by (simpl; lia).
    rewrite (loop_curves (q :: rest) [] first).
    cbn [ofPoints svg svgCommand]. rewrite !append_assoc. reflexivity.
Qed.

Lemma ofPoints_length (points : list Point) :
  List.length (ofPoints points) = List.length points.
Proof.
  destruct points as [| first rest]; [reflexivity |]. simpl. f_equal.
  revert first. induction rest as [| q rest IH]; intros first; simpl; auto.
Qed.

Lemma curves_nth (rest : list Point) (prev : Point) (i : nat) (p q : Point) :
  nth_error (prev :: rest) i = Some p ->
  nth_error rest i = Some q ->
  nth_error (curves prev rest) i = Some (QuadraticCurveTo p (midpoint p q)).
Proof.
  revert prev i. induction rest as [| r rest IH]; intros prev i Hp Hq.
  - destruct i; discriminate.
  - destruct i as [| i]; simpl in *.
    + congruence.
    + now apply IH.
Qed.

Lemma curves_snoc (init : list Point) (first prev p : Point) :
  curves first ((init ++ [prev]) ++ [p])
  = (curves first (init ++ [prev]) ++ [QuadraticCurveTo prev (midpoint prev p)])%list.
Proof.
  revert first. induction init as [| a init IH]; intros first; [reflexivity |].
  cbn [app curves]. now rewrite IH.
Qed.

(** One more point adds one curve command, anchored at the point before. *)
Lemma ofPoints_snoc (init : list Point) (prev p : Point) :
  ofPoints ((init ++ [prev]) ++ [p])
  = (ofPoints (init ++ [prev]) ++ [QuadraticCurveTo prev (midpoint prev p)])%list.
Proof.
  destruct init as [| a init]; [reflexivity |].
  cbn [app ofPoints]. now rewrite curves_snoc.
Qed.

Lemma svg_app (a b : list Command) :
  svg toString (a ++ b) = svg toString a ++ svg toString b.
Proof.
  induction a as [| c a IH]; simpl; [reflexivity |].
  now rewrite IH, append_assoc.
Qed.

Lemma curves_only_curves (rest : list Point) (prev : Point) :
  filter isMove (curves prev rest) = []
  /\ filter isCurve (curves prev rest) = curves prev rest.
Proof.
  revert prev. induction rest as [| q rest IH]; intros prev; [split; reflexivity |].
  cbn [curves filter isMove isCurve]. destruct (IH q) as [-> ->]. split; reflexivity.
Qed.

Lemma curves_length (rest : list Point) (prev : Point) :
  List.length (curves prev rest) = List.length rest.
Proof. revert prev. induction rest; intros; simpl; auto. Qed.

(** One move command for a stroke with a point, and a curve command for
    every point after the first. *)
Lemma ofPoints_census (points : list Point) :
  List.length (filter isMove (ofPoints points)) = Nat.min 1 (List.length points)
  /\ List.length (filter isCurve (ofPoints points)) = List.length points - 1.
Proof.
  destruct points as [| first rest]; [split; reflexivity |].
  cbn [ofPoints filter isMove isCurve List.length].
  destruct (curves_only_curves rest first) as [-> ->].
  rewrite curves_length. split; [reflexivity | lia].
Qed.

Lemma svg_ofPoints_cons (first : Point) (rest : list Point) :
  svg toString (ofPoints (first :: rest))
  = "M" ++ toString (x first) ++ "," ++ toString (y first)
        ++ svg toString (curves first rest).
Proof. cbn [ofPoints svg svgCommand]. now rewrite !append_assoc. Qed.

(** With numbers written in number characters, the letters [M] and [Q] of
    path data are exactly its commands. *)
Hypothesis toString_numberChars : forall v, allNumberChars (toString v) = true.

Lemma toString_no_letter (c : ascii) (v : float) :
  numberChar c = false -> occurrences c (toString v) = 0.
Proof. intros Hc. now apply allNumberChars_occurrences. Qed.

Lemma svgCommand_moves (c : Command) :
  occurrences "M" (svgCommand toString c) = if isMove c then 1 else 0.
Proof.
  destruct c as [p | a d]; cbn [svgCommand isMove];
    repeat (rewrite occurrences_append; cbn [occurrences Ascii.eqb Bool.eqb]);
    rewrite !toString_no_letter by reflexivity; reflexivity.
Qed.

Lemma svgCommand_curves (c : Command) :
  occurrences "Q" (svgCommand toString c) = if isCurve c then 1 else 0.
Proof.
  destruct c as [p | a d]; cbn [svgCommand isCurve];
    repeat (rewrite occurrences_append; cbn [occurrences Ascii.eqb Bool.eqb]);
    rewrite !toString_no_letter by reflexivity; reflexivity.
Qed.

Lemma svg_curves_letters (rest : list Point) (prev : Point) :
  occurrences "M" (svg toString (curves prev rest)) = 0
  /\ occurrences "Q" (svg toString (curves prev rest)) = List.length rest.
Proof.
  revert prev. induction rest as [| q rest IH]; intros prev; [split; reflexivity |].
  cbn [curves svg List.length]. rewrite !occurrences_append.
  rewrite svgCommand_moves, svgCommand_curves. cbn [isMove isCurve].
  destruct (IH q) as [-> ->]. split; reflexivity.
Qed.

Lemma svg_ofPoints_letters (first : Point) (rest : list Point) :
  occurrences "M" (svg toString (ofPoints (first :: rest))) = 1
  /\ occurrences "Q" (svg toString (ofPoints (first :: rest))) = List.length rest.
Proof.
  cbn [ofPoints svg]. rewrite !occurrences_append.
  rewrite svgCommand_moves, svgCommand_curves. cbn [isMove isCurve].
  destruct (svg_curves_letters rest first) as [-> ->]. split; reflexivity.
Qed.

End CurveSegmentGenerator.

(** ** PanResponderSignature, event by event *)

Section PanResponderEvents.

Variable toString : float -> string.
Variable props : PanResponderSignature.Props.

Import PanResponderSignature CurvePath Shapes.

Lemma addPoint_effects (x0 y0 : float) (e : Effects) :
  addPoint toString x0 y0 e
  = Some (tt, {| ref := ref e ++ [mkPoint x0 y0];
                 updates := updates e ++
                   [SetCurrentPath (svg toString (ofPoints (ref e ++ [mkPoint x0 y0])))];
                 calls := calls e |}).
Proof.
  unfold addPoint, Handler.bind, pushRef, Handler.modify, Handler.gets.
  cbn [ref]. rewrite pointsToSVGPath_commands. reflexivity.
Qed.

(** A start event begins a stroke at its point, whatever went before. *)
Lemma dispatch_grant (c : Component) (event : GestureResponderEvent) :
  dispatch toString props c (onPanResponderGrant event)
  = Some (drawing toString (completedPaths (state c)) [pointOfTouch event], []).
Proof.
  unfold dispatch, handlerOf, startStroke, Handler.bind, setIsDrawing, setRef,
    enqueue, Handler.modify.
  rewrite addPoint_effects. reflexivity.
Qed.

Lemma dispatch_move_drawing (completed : list string) (points : list Point)
  (event : GestureResponderEvent) :
  dispatch toString props (drawing toString completed points) (onPanResponderMove event)
  = Some (drawing toString completed (points ++ [pointOfTouch event]), []).
Proof.
  unfold dispatch, handlerOf, continueStroke. cbn [drawing state isDrawing negb].
  rewrite addPoint_effects. reflexivity.
Qed.

Lemma dispatch_move_not_drawing (c : Component) (event : GestureResponderEvent) :
  isDrawing (state c) = false ->
  dispatch toString props c (onPanResponderMove event) = Some (c, []).
Proof.
  intros H. unfold dispatch, handlerOf, continueStroke. rewrite H.
  destruct c as [[] ?]; reflexivity.
Qed.

(** What [endStroke] does, for both events wired to it. *)
Lemma endStroke_dispatch (c : Component) (ev : Event) :
  ev = onPanResponderRelease \/ ev = onPanResponderTerminate ->
  dispatch toString props c ev
  = if negb (isDrawing (state c)) || (currentPath (state c) =? "")
    then Some (c, [])
    else Some (atRest (completedPaths (state c) ++ [currentPath (state c)]),
               notification (onSignatureChange props)
                 (join " " (completedPaths (state c) ++ [currentPath (state c)]))).
Proof.
  intros [-> | ->]; unfold dispatch, handlerOf, endStroke;
    destruct c as [[completed current active] points];
    cbn [state isDrawing currentPath completedPaths];
    destruct (negb active || (current =? "")); try reflexivity;
    unfold Handler.bind, callOnSignatureChange, notification;
    destruct (onSignatureChange props); reflexivity.
Qed.

Lemma dispatch_end_drawing (completed : list string) (first : Point)
  (rest : list Point) (ev : Event) :
  ev = onPanResponderRelease \/ ev = onPanResponderTerminate ->
  dispatch toString props (drawing toString completed (first :: rest)) ev
  = Some (atRest (completed ++ [svg toString (ofPoints (first :: rest))]),
          notification (onSignatureChange props)
            (join " " (completed ++ [svg toString (ofPoints (first :: rest))]))).
Proof.
  intros H. rewrite (endStroke_dispatch _ _ H). reflexivity.
Qed.

Lemma dispatch_clear (c : Component) :
  dispatch toString props c callClearSignature = Some (atRest [], []).
Proof. reflexivity. Qed.

Lemma run_app (c : Component) (evs evs' : list Event) :
  run toString props c (evs ++ evs')
  = match run toString props c evs with
    | None => None
    | Some (c', called) =>
        match run toString props c' evs' with
        | None => None
        | Some (c'', called') => Some (c'', (called ++ called')%list)
        end
    end.
Proof.
  revert c. induction evs as [| ev evs IH]; intros c; cbn [app run].
  - destruct (run toString props c evs') as [[c'' called'] |]; reflexivity.
  - destruct (dispatch toString props c ev) as [[c' called] |]; [| reflexivity].
    rewrite IH. destruct (run toString props c' evs) as [[c1 called1] |]; [| reflexivity].
    destruct (run toString props c1 evs') as [[c2 called2] |]; [| reflexivity].
    now rewrite app_assoc.
Qed.

Lemma run_moves (moves : list GestureResponderEvent) (completed : list string)
  (points : list Point) :
  run toString props (drawing toString completed points)
      (map onPanResponderMove moves)
  = Some (drawing toString completed (points ++ map pointOfTouch moves), []).
Proof.
  revert points. induction moves as [| m moves IH]; intros points; cbn [map run].
  - now rewrite app_nil_r.
  - rewrite dispatch_move_drawing, IH, <- app_assoc. reflexivity.
Qed.

(** A whole stroke, from any component state. *)
Lemma run_stroke (c : Component) (first : GestureResponderEvent)
  (moves : list GestureResponderEvent) (ending : Event) :
  ending = onPanResponderRelease \/ ending = onPanResponderTerminate ->
  run toString props c (strokeEvents first moves ending)
  = Some (atRest (completedPaths (state c)
                  ++ [svg toString (ofPoints (map pointOfTouch (first :: moves)))]),
          notification (onSignatureChange props)
            (join " " (completedPaths (state c)
                       ++ [svg toString (ofPoints (map pointOfTouch (first :: moves)))]))).
Proof.
  intros H. unfold strokeEvents. cbn [run]. rewrite dispatch_grant.
  rewrite run_app, run_moves. cbn [run app map].
  rewrite (dispatch_end_drawing _ _ _ _ H). now rewrite app_nil_r.
Qed.

Lemma strokeEnd_cases (cancelled : bool) :
  strokeEnd cancelled = onPanResponderRelease
  \/ strokeEnd cancelled = onPanResponderTerminate.
Proof. destruct cancelled; auto. Qed.

Lemma dispatch_move_active (c : Component) (event : GestureResponderEvent) :
  isDrawing (state c) = true ->
  dispatch toString props c (onPanResponderMove event)
  = Some (drawing toString (completedPaths (state c))
            (currentPoints c ++ [pointOfTouch event]), []).
Proof.
  intros H. unfold dispatch, handlerOf, continueStroke. rewrite H. cbn [negb].
  rewrite addPoint_effects. unfold drawing. cbn. now rewrite H.
Qed.

(** No event makes a handler throw. *)
Lemma dispatch_total (c : Component) (ev : Event) :
  exists c' called, dispatch toString props c ev = Some (c', called).
Proof.
  destruct ev as [event | event | | |].
  - rewrite dispatch_grant. eauto.
  - destruct (isDrawing (state c)) eqn:H.
    + rewrite dispatch_move_active by exact H. eauto.
    + rewrite dispatch_move_not_drawing by exact H. eauto.
  - rewrite endStroke_dispatch by auto.
    destruct (negb _ || _); eauto.
  - rewrite endStroke_dispatch by auto.
    destruct (negb _ || _); eauto.
  - rewrite dispatch_clear. eauto.
Qed.

Lemma run_total (evs : list Event) (c : Component) :
  exists c' called, run toString props c evs = Some (c', called).
Proof.
  revert c. induction evs as [| ev evs IH]; intros c; cbn [run]; [eauto |].
  destruct (dispatch_total c ev) as (c1 & called1 & ->).
  destruct (IH c1) as (c2 & called2 & ->). eauto.
Qed.


Lemma getSignatureData_atRest (completed : list string) :
  getSignatureData (state (atRest completed)) = join " " completed.
Proof. reflexivity. Qed.

End PanResponderEvents.

(** ** CustomSignature, event by event *)

Section CustomEvents.

Variable toString : float -> string.
Variable props : CustomSignature.Props.

Import CustomSignature CurvePath Shapes.

(** The first point of a stroke sets the path to a move command. *)
Lemma dispatch_update_first (completed : list string) (event : GestureEvent) :
  dispatch toString props (sketch toString completed []) (onUpdate event)
  = Some (sketch toString completed [pointOfPan event], []).
Proof.
  unfold dispatch, sketch. cbn. now rewrite append_empty_r.
Qed.

(** A later point appends one curve segment to the path. *)
Lemma dispatch_update_next (completed : list string) (init : list Point)
  (prev : Point) (event : GestureEvent) :
  dispatch toString props (sketch toString completed (init ++ [prev])) (onUpdate event)
  = Some (sketch toString completed ((init ++ [prev]) ++ [pointOfPan event]), []).
Proof.
  unfold dispatch, handlerOf, addPoint, Handler.bind, pushRef, Handler.modify,
    Handler.gets.
  cbn [sketch state CustomSignature.currentPath ref].
  fold (pointOfPan event).
  set (current := ((init ++ [prev]) ++ [pointOfPan event])%list).
  assert (Hlen : List.length current = S (S (List.length init)))
    by (unfold current; rewrite !length_app; simpl; lia).
  rewrite Hlen. cbn [Nat.eqb Nat.leb].
  replace (S (S (List.length init)) - 2) with (List.length init) by lia.
  replace (S (S (List.length init)) - 1) with (S (List.length init)) by lia.
  assert (Hprev : nth_error current (List.length init) = Some prev).
  { unfold current. rewrite <- app_assoc, nth_error_app2 by lia.
    now rewrite Nat.sub_diag. }
  assert (Hcur : nth_error current (S (List.length init)) = Some (pointOfPan event)).
  { unfold current. rewrite nth_error_app2 by (rewrite length_app; simpl; lia).
    rewrite length_app. cbn [List.length].
    replace (S (List.length init) - (List.length init + 1)) with 0 by lia.
    reflexivity. }
  rewrite Hprev, Hcur. cbn [Handler.eval Handler.ret enqueue Handler.modify
    updates ref calls app fold_left applyUpdate pathData paths].
  unfold sketch, current. rewrite ofPoints_snoc, svg_app.
  cbn [svg]. now rewrite append_empty_r.
Qed.

Lemma dispatch_update (completed : list string) (points : list Point)
  (event : GestureEvent) :
  dispatch toString props (sketch toString completed points) (onUpdate event)
  = Some (sketch toString completed (points ++ [pointOfPan event]), []).
Proof.
  destruct points as [| p points] using rev_ind.
  - apply dispatch_update_first.
  - apply dispatch_update_next.
Qed.

Lemma dispatch_end_empty (completed : list string) :
  dispatch toString props (sketch toString completed []) onEnd
  = Some (sketch toString completed [], []).
Proof. reflexivity. Qed.

Lemma dispatch_end_stroke (completed : list string) (first : Point)
  (rest : list Point) :
  dispatch toString props (sketch toString completed (first :: rest)) onEnd
  = Some (sketch toString (completed ++ [svg toString (ofPoints (first :: rest))]) [],
          notification (onSignatureChange props)
            (join " " (completed ++ [svg toString (ofPoints (first :: rest))]))).
Proof.
  unfold dispatch, handlerOf, finalizePath.
  cbn [sketch state pathData paths truthy ofPoints svg svgCommand append
       String.eqb negb].
  unfold Handler.bind, callOnSignatureChange, notification.
  destruct (onSignatureChange props); reflexivity.
Qed.

(** Every event keeps the path data equal to the text of the buffered
    points' commands, and no event throws. *)
Lemma dispatch_sketch (completed : list string) (points : list Point) (ev : Event) :
  exists completed' points' called,
    dispatch toString props (sketch toString completed points) ev
    = Some (sketch toString completed' points', called).
Proof.
  destruct ev as [event |].
  - rewrite dispatch_update. eauto.
  - destruct points as [| first rest].
    + rewrite dispatch_end_empty. eauto.
    + rewrite dispatch_end_stroke. eauto.
Qed.

Lemma run_sketch (evs : list Event) (completed : list string) (points : list Point) :
  exists completed' points' called,
    run toString props (sketch toString completed points) evs
    = Some (sketch toString completed' points', called).
Proof.
  revert completed points.
  induction evs as [| ev evs IH]; intros completed points; cbn [run].
  - eauto.
  - destruct (dispatch_sketch completed points ev) as (c1 & p1 & called1 & ->).
    destruct (IH c1 p1) as (c2 & p2 & called2 & ->). eauto.
Qed.

Lemma run_updates (events : list GestureEvent) (completed : list string)
  (points : list Point) :
  run toString props (sketch toString completed points) (map onUpdate events)
  = Some (sketch toString completed (points ++ map pointOfPan events), []).
Proof.
  revert points. induction events as [| m events IH]; intros points; cbn [map run].
  - now rewrite app_nil_r.
  - rewrite dispatch_update, IH, <- app_assoc. reflexivity.
Qed.

(** A point update from any component state: no exception, no callback,
    the completed paths untouched. *)
Lemma dispatch_update_any (c : Component) (event : GestureEvent) :
  exists data,
    dispatch toString props c (onUpdate event)
    = Some ({| state := {| pathData := data; paths := paths (state c) |};
               currentPath := currentPath c ++ [pointOfPan event] |}, []).
Proof.
  destruct c as [[data completed] points].
  unfold dispatch, handlerOf, addPoint, Handler.bind, pushRef, Handler.modify,
    Handler.gets.
  cbn [state CustomSignature.currentPath ref paths pathData].
  fold (pointOfPan event).
  destruct points as [| prev init _] using rev_ind.
  - cbn. eauto.
  - set (current := ((init ++ [prev]) ++ [pointOfPan event])%list).
    assert (Hlen : List.length current = S (S (List.length init)))
      by (unfold current; rewrite !length_app; simpl; lia).
    rewrite Hlen. cbn [Nat.eqb Nat.leb].
    replace (S (S (List.length init)) - 2) with (List.length init) by lia.
    replace (S (S (List.length init)) - 1) with (S (List.length init)) by lia.
    assert (Hprev : nth_error current (List.length init) = Some prev).
    { unfold current. rewrite <- app_assoc, nth_error_app2 by lia.
      now rewrite Nat.sub_diag. }
    assert (Hcur : nth_error current (S (List.length init)) = Some (pointOfPan event)).
    { unfold current. rewrite nth_error_app2 by (rewrite length_app; simpl; lia).
      rewrite length_app. cbn [List.length].
      replace (S (List.length init) - (List.length init + 1)) with 0 by lia.
      reflexivity. }
    rewrite Hprev, Hcur. cbn. eauto.
Qed.

(** What [finalizePath] does from any component state. *)
Lemma dispatch_end_any (c : Component) :
  dispatch toString props c onEnd
  = if truthy (pathData (state c))
    then Some ({| state := {| pathData := "";
                              paths := paths (state c) ++ [pathData (state c)] |};
                  currentPath := [] |},
               notification (onSignatureChange props)
                 (join " " (paths (state c) ++ [pathData (state c)])))
    else Some (c, []).
Proof.
  destruct c as [[data completed] points].
  unfold dispatch, handlerOf, finalizePath. cbn [state pathData paths].
  destruct (truthy data); [| reflexivity].
  unfold Handler.bind, callOnSignatureChange, notification.
  destruct (onSignatureChange props); reflexivity.
Qed.


End CustomEvents.

(** * The claims *)

(** The stroke of the concrete scenario: (0,0), (10,0), (10,10). *)
Example scenario_commands :
  CurvePath.ofPoints [mkPoint 0 0; mkPoint 10 0; mkPoint 10 10]
  = [CurvePath.MoveTo (mkPoint 0 0);
     CurvePath.QuadraticCurveTo (mkPoint 0 0) (mkPoint 5 0);
     CurvePath.QuadraticCurveTo (mkPoint 10 0) (mkPoint 10 5)].
Proof. reflexivity. Qed.

(** C1.  A stroke of two or more points p0 .. p(N-1) yields the path data of
    the command list that moves to p0 and then, for each i from 1 to N-1,
    curves with anchor p(i-1) to the midpoint of p(i-1) and p(i).  This is
    what [pointsToSVGPath] returns, what [PanResponderSignature] stores when
    the stroke ends (by release or by termination) and what
    [CustomSignature] holds as its path after the same points as updates.
    The stroke (0,0), (10,0), (10,10) yields MoveTo (0,0),
    QuadraticCurveTo (0,0) (5,0), QuadraticCurveTo (10,0) (10,5): as the
    path [PanResponderSignature] completes at the end of the stroke, and as
    the path [CustomSignature] has built after the three updates. *)
Theorem C1_stroke_curve_path (toString : float -> string) :
  (forall points : list Point,
     2 <= List.length points ->
     exists commands : list CurvePath.Command,
       PR.pointsToSVGPath toString points = Some (CurvePath.svg toString commands)
       /\ List.length commands = List.length points
       /\ (forall first, nth_error points 0 = Some first ->
             nth_error commands 0 = Some (CurvePath.MoveTo first))
       /\ (forall i p q,
             1 <= i ->
             nth_error points (i - 1) = Some p ->
             nth_error points i = Some q ->
             nth_error commands i
             = Some (CurvePath.QuadraticCurveTo p
                       (mkPoint (half_sum (x p) (x q)) (half_sum (y p) (y q)))))
       /\ (forall props c first moves cancelled,
             map pointOfTouch (first :: moves) = points ->
             PR.run toString props c (strokeEvents first moves (strokeEnd cancelled))
             = Some (Shapes.atRest
                       (PR.completedPaths (PR.state c) ++ [CurvePath.svg toString commands]),
                     notification (PR.onSignatureChange props)
                       (join " " (PR.completedPaths (PR.state c)
                                  ++ [CurvePath.svg toString commands]))))
       /\ (forall props completed events,
             map pointOfPan events = points ->
             CS.run toString props (Shapes.sketch toString completed [])
                    (map CS.onUpdate events)
             = Some ({| CS.state :=
                          {| CS.pathData := CurvePath.svg toString commands;
                             CS.paths := completed |};
                        CS.currentPath := points |}, [])))
  /\ (forall props,
        PR.run toString props PR.mount
               (strokeEvents (touch 0 0) [touch 10 0; touch 10 10]
                             PR.onPanResponderRelease)
        = Some (Shapes.atRest
                  [CurvePath.svg toString
                     [CurvePath.MoveTo (mkPoint 0 0);
                      CurvePath.QuadraticCurveTo (mkPoint 0 0) (mkPoint 5 0);
                      CurvePath.QuadraticCurveTo (mkPoint 10 0) (mkPoint 10 5)]],
                notification (PR.onSignatureChange props)
                  (CurvePath.svg toString
                     [CurvePath.MoveTo (mkPoint 0 0);
                      CurvePath.QuadraticCurveTo (mkPoint 0 0) (mkPoint 5 0);
                      CurvePath.QuadraticCurveTo (mkPoint 10 0) (mkPoint 10 5)])))
  /\ (forall props,
        CS.run toString props CS.mount
               [CS.onUpdate (pan 0 0); CS.onUpdate (pan 10 0);
                CS.onUpdate (pan 10 10)]
        = Some ({| CS.state :=
                     {| CS.pathData :=
                          CurvePath.svg toString
                            [CurvePath.MoveTo (mkPoint 0 0);
                             CurvePath.QuadraticCurveTo (mkPoint 0 0) (mkPoint 5 0);
                             CurvePath.QuadraticCurveTo (mkPoint 10 0) (mkPoint 10 5)];
                        CS.paths := [] |};
                   CS.currentPath := [mkPoint 0 0; mkPoint 10 0; mkPoint 10 10] |},
                [])).
Proof.
  split; [| split].
  - intros points Hlen.
    destruct points as [| first rest]; [simpl in Hlen; lia |].
    exists (CurvePath.ofPoints (first :: rest)).
    split; [apply pointsToSVGPath_commands |].
    split; [apply ofPoints_length |].
    split; [intros f Hf; simpl in Hf; injection Hf as <-; reflexivity |].
    split.
    { intros i p q Hi Hp Hq. destruct i as [| i]; [lia |].
      replace (S i - 1) with i in Hp by lia.
      cbn [CurvePath.ofPoints nth_error]. simpl in Hq.
      apply (curves_nth rest first i p q Hp Hq). }
    split.
    { intros props c e moves cancelled <-.
      apply run_stroke, strokeEnd_cases. }
    { intros props completed events Hev.
      rewrite <- Hev. apply (run_updates toString props events completed []). }
  - intros props. rewrite run_stroke by auto. reflexivity.
  - intros props.
    exact (run_updates toString props [pan 0 0; pan 10 0; pan 10 10] [] []).
Qed.

(** The commands of the stroke (0,0), (10,0), (10,10), read off C1. *)
Lemma C1_stroke_curve_path_witness :
  2 <= List.length [mkPoint 0 0; mkPoint 10 0; mkPoint 10 10]
  /\ exists commands : list CurvePath.Command,
       PR.pointsToSVGPath ExactDecimal.toString
         [mkPoint 0 0; mkPoint 10 0; mkPoint 10 10]
       = Some (CurvePath.svg ExactDecimal.toString commands)
       /\ List.length commands = 3
       /\ nth_error commands 0 = Some (CurvePath.MoveTo (mkPoint 0 0))
       /\ nth_error commands 1
          = Some (CurvePath.QuadraticCurveTo (mkPoint 0 0) (mkPoint 5 0))
       /\ nth_error commands 2
          = Some (CurvePath.QuadraticCurveTo (mkPoint 10 0) (mkPoint 10 5)).
Proof.
  assert (Hlen : 2 <= List.length [mkPoint 0 0; mkPoint 10 0; mkPoint 10 10])
    by (simpl; lia).
  split; [exact Hlen |].
  destruct (proj1 (C1_stroke_curve_path ExactDecimal.toString) _ Hlen)
    as (commands & Hpath & Hsize & Hmove & Hcurve & _).
  exists commands.
  split; [exact Hpath |].
  split; [exact Hsize |].
  split; [apply Hmove; reflexivity |].
  split.
  - apply (Hcurve 1 (mkPoint 0 0) (mkPoint 10 0)); [lia | reflexivity | reflexivity].
  - apply (Hcurve 2 (mkPoint 10 0) (mkPoint 10 10)); [lia | reflexivity | reflexivity].
Defined.

(** The same stroke with numbers written in decimal. *)
Example scenario_path_data :
  PR.pointsToSVGPath ExactDecimal.toString [mkPoint 0 0; mkPoint 10 0; mkPoint 10 10]
  = Some "M0,0Q0,0 5,0Q10,0 10,5"
  /\ PR.run ExactDecimal.toString {| PR.onSignatureChange := true |} PR.mount
        (strokeEvents (touch 0 0) [touch 10 0; touch 10 10] PR.onPanResponderRelease)
     = Some (Shapes.atRest ["M0,0Q0,0 5,0Q10,0 10,5"], ["M0,0Q0,0 5,0Q10,0 10,5"])
  /\ CS.run ExactDecimal.toString {| CS.onSignatureChange := true |} CS.mount
        [CS.onUpdate (pan 0 0); CS.onUpdate (pan 10 0); CS.onUpdate (pan 10 10)]
     = Some ({| CS.state := {| CS.pathData := "M0,0Q0,0 5,0Q10,0 10,5"; CS.paths := [] |};
                CS.currentPath := [mkPoint 0 0; mkPoint 10 0; mkPoint 10 10] |},
             []).
Proof. repeat split; vm_compute; reflexivity. Qed.

(** C2.  For the points of one stroke, duplicates included: no point gives
    the empty path; one point gives one move command and no curve command;
    N >= 2 points give one move command, to the first point and at the
    front, and N-1 curve commands.  Commands are counted as the letters [M]
    and [Q] of the path data, numbers being written in number characters,
    and as the commands of the list the path data is the text of.
    The path is the one [PanResponderSignature] holds after a start and the
    moves, and the one [CustomSignature] holds after the same updates. *)
Theorem C2_command_counts (toString : float -> string)
  (toString_numberChars : forall v, allNumberChars (toString v) = true)
  (points : list Point) :
  exists path : string,
    PR.pointsToSVGPath toString points = Some path
    /\ (List.length points = 0 -> path = "")
    /\ (List.length points = 1 ->
          occurrences "M" path = 1 /\ occurrences "Q" path = 0)
    /\ (2 <= List.length points ->
          occurrences "M" path = 1
          /\ occurrences "Q" path = List.length points - 1)
    /\ (forall first, nth_error points 0 = Some first ->
          exists curves : string,
            path = "M" ++ toString (x first) ++ "," ++ toString (y first) ++ curves
            /\ occurrences "M" curves = 0)
    /\ (exists commands : list CurvePath.Command,
          path = CurvePath.svg toString commands
          /\ List.length (filter CurvePath.isMove commands)
             = Nat.min 1 (List.length points)
          /\ List.length (filter CurvePath.isCurve commands)
             = List.length points - 1)
    /\ (forall props c first moves,
          map pointOfTouch (first :: moves) = points ->
          exists c',
            PR.run toString props c
              (PR.onPanResponderGrant first :: map PR.onPanResponderMove moves)
            = Some (c', [])
            /\ PR.currentPath (PR.state c') = path
            /\ PR.currentPoints c' = points)
    /\ (forall props completed events,
          map pointOfPan events = points ->
          exists c',
            CS.run toString props (Shapes.sketch toString completed [])
              (map CS.onUpdate events)
            = Some (c', [])
            /\ CS.pathData (CS.state c') = path
            /\ CS.currentPath c' = points).
Proof.
  exists (CurvePath.svg toString (CurvePath.ofPoints points)).
  split; [apply pointsToSVGPath_commands |].
  split; [destruct points; [reflexivity | discriminate] |].
  split.
  { destruct points as [| first rest]; [discriminate |]. intros H.
    destruct (svg_ofPoints_letters toString toString_numberChars first rest) as [-> ->].
    simpl in H. split; [reflexivity | lia]. }
  split.
  { destruct points as [| first rest]; [simpl; lia |]. intros _.
    destruct (svg_ofPoints_letters toString toString_numberChars first rest) as [-> ->].
    simpl. split; [reflexivity | lia]. }
  split.
  { intros first H. destruct points as [| p rest]; [discriminate |].
    injection H as ->.
    exists (CurvePath.svg toString (CurvePath.curves first rest)).
    split; [apply svg_ofPoints_cons |].
    apply (svg_curves_letters toString toString_numberChars). }
  split.
  { exists (CurvePath.ofPoints points). split; [reflexivity |].
    apply ofPoints_census. }
  split.
  { intros props c first moves <-.
    exists (Shapes.drawing toString (PR.completedPaths (PR.state c))
              (map pointOfTouch (first :: moves))).
    split; [| split; reflexivity].
    cbn [PR.run]. rewrite dispatch_grant, run_moves. reflexivity. }
  { intros props completed events <-.
    exists (Shapes.sketch toString completed (map pointOfPan events)).
    split; [| split; reflexivity].
    rewrite run_updates. reflexivity. }
Qed.

(** A stroke with a repeated point: one move and two curves. *)
Lemma C2_command_counts_witness :
  (forall v, allNumberChars (ExactDecimal.toString v) = true)
  /\ exists path : string,
       PR.pointsToSVGPath ExactDecimal.toString
         [mkPoint 1 1; mkPoint 1 1; mkPoint 2 2] = Some path
       /\ occurrences "M" path = 1
       /\ occurrences "Q" path = 2.
Proof.
  split; [exact exactDecimal_numberChars |].
  destruct (C2_command_counts ExactDecimal.toString exactDecimal_numberChars
              [mkPoint 1 1; mkPoint 1 1; mkPoint 2 2])
    as (path & Hpath & _ & _ & Hmany & _).
  exists path. split; [exact Hpath |].
  apply Hmany. simpl. lia.
Defined.

(** Duplicate points give a curve of no length, as any other segment. *)
Example duplicate_points_path_data :
  PR.pointsToSVGPath ExactDecimal.toString [mkPoint 1 1; mkPoint 1 1; mkPoint 2 2]
  = Some "M1,1Q1,1 1,1Q1,1 1.5,1.5"
  /\ PR.pointsToSVGPath ExactDecimal.toString [] = Some ""
  /\ PR.pointsToSVGPath ExactDecimal.toString [mkPoint 1 1] = Some "M1,1".
Proof. repeat split; vm_compute; reflexivity. Qed.

(** C3.  After any history of events, and after each further point, the
    path data [CustomSignature.addPoint] has built by appending one segment
    to what it held equals [pointsToSVGPath] of all the points buffered so
    far: the patched path and the rebuilt path are the same string. *)
Theorem C3_patched_path_is_rebuilt_path (toString : float -> string)
  (props : CS.Props) (history : list CS.Event) (event : CS.GestureEvent) :
  exists c called c',
    CS.run toString props CS.mount history = Some (c, called)
    /\ CS.dispatch toString props c (CS.onUpdate event) = Some (c', [])
    /\ CS.currentPath c' = (CS.currentPath c ++ [pointOfPan event])%list
    /\ (exists segment,
          CS.pathData (CS.state c') = CS.pathData (CS.state c) ++ segment)
    /\ PR.pointsToSVGPath toString (CS.currentPath c)
       = Some (CS.pathData (CS.state c))
    /\ PR.pointsToSVGPath toString (CS.currentPath c')
       = Some (CS.pathData (CS.state c')).
Proof.
  destruct (run_sketch toString props history [] [])
    as (completed & points & called & Hrun).
  exists (Shapes.sketch toString completed points), called,
    (Shapes.sketch toString completed (points ++ [pointOfPan event])).
  split; [exact Hrun |].
  split; [apply dispatch_update |].
  split; [reflexivity |].
  split.
  { cbn [Shapes.sketch CS.state CS.pathData].
    destruct points as [| prev init _] using rev_ind.
    - exists (CurvePath.svg toString (CurvePath.ofPoints [pointOfPan event])).
      reflexivity.
    - exists (CurvePath.svg toString
                [CurvePath.QuadraticCurveTo prev
                   (CurvePath.midpoint prev (pointOfPan event))]).
      now rewrite ofPoints_snoc, svg_app. }
  split; apply pointsToSVGPath_commands.
Qed.

(** C4 as stated fails.  The components notify only when a stroke ends:
    after a start and a point update the path has changed and
    [onSignatureChange], though supplied, has not been called. *)
Lemma C4_point_update_without_notification :
  PR.run ExactDecimal.toString {| PR.onSignatureChange := true |} PR.mount
    [PR.onPanResponderGrant (touch 0 0); PR.onPanResponderMove (touch 10 0)]
  = Some ({| PR.state := {| PR.completedPaths := [];
                            PR.currentPath := "M0,0Q0,0 5,0";
                            PR.isDrawing := true |};
             PR.currentPoints := [mkPoint 0 0; mkPoint 10 0] |},
          [])
  /\ CS.run ExactDecimal.toString {| CS.onSignatureChange := true |} CS.mount
       [CS.onUpdate (pan 0 0); CS.onUpdate (pan 10 0)]
     = Some ({| CS.state := {| CS.pathData := "M0,0Q0,0 5,0"; CS.paths := [] |};
                CS.currentPath := [mkPoint 0 0; mkPoint 10 0] |},
             []).
Proof. split; vm_compute; reflexivity. Qed.

(** C4, amended.  [onSignatureChange] is called only by the handler that
    ends a stroke.  In [PanResponderSignature] a release or a termination
    calls it once, if it is supplied, when a stroke is being drawn and its
    path is not empty, with the completed paths and the path of that stroke
    joined by single spaces; a start, a point update and [clearSignature]
    call nothing.  In [CustomSignature] the end of the gesture calls it in
    the same way when the path is not empty, and a point update calls
    nothing.  The call is made inside the handler, before it returns. *)
Theorem C4_notification_at_stroke_end (toString : float -> string) :
  (forall props c ev,
     exists c',
       PR.dispatch toString props c ev
       = Some (c',
               match ev with
               | PR.onPanResponderRelease | PR.onPanResponderTerminate =>
                   if PR.isDrawing (PR.state c) && truthy (PR.currentPath (PR.state c))
                   then notification (PR.onSignatureChange props)
                          (join " " (PR.completedPaths (PR.state c)
                                     ++ [PR.currentPath (PR.state c)]))
                   else []
               | _ => []
               end))
  /\ (forall props c ev,
        exists c',
          CS.dispatch toString props c ev
          = Some (c',
                  match ev with
                  | CS.onEnd =>
                      if truthy (CS.pathData (CS.state c))
                      then notification (CS.onSignatureChange props)
                             (join " " (CS.paths (CS.state c)
                                        ++ [CS.pathData (CS.state c)]))
                      else []
                  | CS.onUpdate _ => []
                  end)).
Proof.
  split.
  - intros props c ev.
    assert (Hend : forall ev0, ev0 = PR.onPanResponderRelease
                               \/ ev0 = PR.onPanResponderTerminate ->
      exists c', PR.dispatch toString props c ev0
      = Some (c',
              if PR.isDrawing (PR.state c) && truthy (PR.currentPath (PR.state c))
              then notification (PR.onSignatureChange props)
                     (join " " (PR.completedPaths (PR.state c)
                                ++ [PR.currentPath (PR.state c)]))
              else [])).
    { intros ev0 H0. rewrite (endStroke_dispatch toString props c ev0 H0).
      unfold truthy.
      destruct (PR.isDrawing (PR.state c)), (PR.currentPath (PR.state c) =? "");
        cbn [negb orb andb]; eauto. }
    destruct ev as [event | event | | |].
    + rewrite dispatch_grant. eauto.
    + destruct (PR.isDrawing (PR.state c)) eqn:H.
      * rewrite dispatch_move_active by exact H. eauto.
      * rewrite dispatch_move_not_drawing by exact H. eauto.
    + apply Hend. auto.
    + apply Hend. auto.
    + rewrite dispatch_clear. eauto.
  - intros props c [event |].
    + destruct (dispatch_update_any toString props c event) as (data & ->). eauto.
    + rewrite dispatch_end_any. destruct (truthy _); eauto.
Qed.

(** C5.  The list of completed paths only grows at its end.  Every event of
    [PanResponderSignature] other than [clearSignature], and every event of
    [CustomSignature], leaves the completed paths as they were or adds one
    path after them.  When stroke A is completed and then stroke B, the
    completed paths are the earlier ones, then A's path, then B's, and the
    serialized drawing is the serialized drawing after A, a space, and B's
    path, with A's path last in the former. *)
Theorem C5_completed_paths_append_only (toString : float -> string) :
  (forall props c ev,
     ev <> PR.callClearSignature ->
     exists c' called,
       PR.dispatch toString props c ev = Some (c', called)
       /\ (PR.completedPaths (PR.state c') = PR.completedPaths (PR.state c)
           \/ PR.completedPaths (PR.state c')
              = (PR.completedPaths (PR.state c) ++ [PR.currentPath (PR.state c)])%list))
  /\ (forall props c ev,
        exists c' called,
          CS.dispatch toString props c ev = Some (c', called)
          /\ (CS.paths (CS.state c') = CS.paths (CS.state c)
              \/ CS.paths (CS.state c')
                 = (CS.paths (CS.state c) ++ [CS.pathData (CS.state c)])%list))
  /\ (forall props c firstA movesA cancelledA firstB movesB cancelledB,
        exists cA calledA cB calledB before,
          PR.run toString props c (strokeEvents firstA movesA (strokeEnd cancelledA))
          = Some (cA, calledA)
          /\ PR.run toString props cA (strokeEvents firstB movesB (strokeEnd cancelledB))
             = Some (cB, calledB)
          /\ PR.completedPaths (PR.state cA)
             = (PR.completedPaths (PR.state c)
                ++ [CurvePath.svg toString
                      (CurvePath.ofPoints (map pointOfTouch (firstA :: movesA)))])%list
          /\ PR.completedPaths (PR.state cB)
             = (PR.completedPaths (PR.state c)
                ++ [CurvePath.svg toString
                      (CurvePath.ofPoints (map pointOfTouch (firstA :: movesA)));
                    CurvePath.svg toString
                      (CurvePath.ofPoints (map pointOfTouch (firstB :: movesB)))])%list
          /\ PR.getSignatureData (PR.state cA)
             = before ++ CurvePath.svg toString
                           (CurvePath.ofPoints (map pointOfTouch (firstA :: movesA)))
          /\ PR.getSignatureData (PR.state cB)
             = PR.getSignatureData (PR.state cA) ++ " "
               ++ CurvePath.svg toString
                    (CurvePath.ofPoints (map pointOfTouch (firstB :: movesB)))).
Proof.
  split; [| split].
  - intros props c ev Hev.
    destruct ev as [event | event | | |]; [| | | | congruence].
    + rewrite dispatch_grant. eexists _, []. split; [reflexivity | now left].
    + destruct (PR.isDrawing (PR.state c)) eqn:H.
      * rewrite dispatch_move_active by exact H.
        eexists _, []. split; [reflexivity | now left].
      * rewrite dispatch_move_not_drawing by exact H.
        exists c, []. split; [reflexivity | now left].
    + rewrite endStroke_dispatch by auto. destruct (negb _ || _).
      * exists c, []. split; [reflexivity | now left].
      * eexists _, _. split; [reflexivity | now right].
    + rewrite endStroke_dispatch by auto. destruct (negb _ || _).
      * exists c, []. split; [reflexivity | now left].
      * eexists _, _. split; [reflexivity | now right].
  - intros props c [event |].
    + destruct (dispatch_update_any toString props c event) as (data & ->).
      eexists _, []. split; [reflexivity | now left].
    + rewrite dispatch_end_any. destruct (truthy _).
      * eexists _, _. split; [reflexivity | now right].
      * exists c, []. split; [reflexivity | now left].
  - intros props c firstA movesA cancelledA firstB movesB cancelledB.
    set (pathA := CurvePath.svg toString
                    (CurvePath.ofPoints (map pointOfTouch (firstA :: movesA)))).
    set (pathB := CurvePath.svg toString
                    (CurvePath.ofPoints (map pointOfTouch (firstB :: movesB)))).
    exists (Shapes.atRest (PR.completedPaths (PR.state c) ++ [pathA])).
    eexists.
    exists (Shapes.atRest ((PR.completedPaths (PR.state c) ++ [pathA]) ++ [pathB])).
    eexists.
    exists (match PR.completedPaths (PR.state c) with
            | [] => ""
            | _ :: _ => join " " (PR.completedPaths (PR.state c)) ++ " "
            end).
    split; [apply run_stroke, strokeEnd_cases |].
    split; [apply run_stroke, strokeEnd_cases |].
    split; [reflexivity |].
    split; [cbn; now rewrite <- app_assoc |].
    rewrite !getSignatureData_atRest. split.
    + rewrite join_snoc. destruct (PR.completedPaths (PR.state c)); [reflexivity |].
      now rewrite append_assoc.
    + rewrite (join_snoc " " (PR.completedPaths (PR.state c) ++ [pathA])).
      destruct (PR.completedPaths (PR.state c)); reflexivity.
Qed.

(** A release during a stroke, after one completed path. *)
Lemma C5_completed_paths_append_only_witness :
  PR.onPanResponderRelease <> PR.callClearSignature
  /\ exists c' called,
       PR.dispatch ExactDecimal.toString {| PR.onSignatureChange := true |}
         (Shapes.drawing ExactDecimal.toString ["M1,1"] [mkPoint 2 2])
         PR.onPanResponderRelease
       = Some (c', called)
       /\ (PR.completedPaths (PR.state c') = ["M1,1"]
           \/ PR.completedPaths (PR.state c') = ["M1,1"; "M2,2"]).
Proof.
  assert (H : PR.onPanResponderRelease <> PR.callClearSignature) by discriminate.
  split; [exact H |].
  exact (proj1 (C5_completed_paths_append_only ExactDecimal.toString)
           {| PR.onSignatureChange := true |}
           (Shapes.drawing ExactDecimal.toString ["M1,1"] [mkPoint 2 2])
           PR.onPanResponderRelease H).
Defined.

(** Two taps, one after the other: two move-only paths, in order. *)
Example two_taps :
  PR.run ExactDecimal.toString {| PR.onSignatureChange := true |} PR.mount
    (strokeEvents (touch 1 1) [] PR.onPanResponderRelease
     ++ strokeEvents (touch 2 2) [] PR.onPanResponderRelease)
  = Some (Shapes.atRest ["M1,1"; "M2,2"], ["M1,1"; "M1,1 M2,2"]).
Proof. vm_compute. reflexivity. Qed.

(** C6.  A termination (the touch is cancelled) is handled by the handler of
    a release: from every component state the two events give the same
    next state and the same notification, so whole strokes ended either way
    agree; the stroke (0,0), (5,5), (10,0) leaves the same completed path
    either way. *)
Theorem C6_cancel_is_end (toString : float -> string) (props : PR.Props)
  (c : PR.Component) :
  PR.dispatch toString props c PR.onPanResponderTerminate
  = PR.dispatch toString props c PR.onPanResponderRelease
  /\ (forall first moves,
        PR.run toString props c (strokeEvents first moves PR.onPanResponderTerminate)
        = PR.run toString props c (strokeEvents first moves PR.onPanResponderRelease))
  /\ (forall cancelled,
        PR.run toString props c
          (strokeEvents (touch 0 0) [touch 5 5; touch 10 0] (strokeEnd cancelled))
        = Some (Shapes.atRest
                  (PR.completedPaths (PR.state c)
                   ++ [CurvePath.svg toString
                         [CurvePath.MoveTo (mkPoint 0 0);
                          CurvePath.QuadraticCurveTo (mkPoint 0 0) (mkPoint 2.5 2.5);
                          CurvePath.QuadraticCurveTo (mkPoint 5 5) (mkPoint 7.5 2.5)]]),
                notification (PR.onSignatureChange props)
                  (join " "
                     (PR.completedPaths (PR.state c)
                      ++ [CurvePath.svg toString
                            [CurvePath.MoveTo (mkPoint 0 0);
                             CurvePath.QuadraticCurveTo (mkPoint 0 0) (mkPoint 2.5 2.5);
                             CurvePath.QuadraticCurveTo (mkPoint 5 5) (mkPoint 7.5 2.5)]])))).
Proof.
  split; [reflexivity |]. split.
  - intros first moves. rewrite !run_stroke by auto. reflexivity.
  - intros cancelled. rewrite run_stroke by apply strokeEnd_cases. reflexivity.
Qed.

Example cancelled_stroke_path_data :
  PR.run ExactDecimal.toString {| PR.onSignatureChange := true |} PR.mount
    (strokeEvents (touch 0 0) [touch 5 5; touch 10 0] PR.onPanResponderTerminate)
  = Some (Shapes.atRest ["M0,0Q0,0 2.5,2.5Q5,5 7.5,2.5"],
          ["M0,0Q0,0 2.5,2.5Q5,5 7.5,2.5"]).
Proof. vm_compute. reflexivity. Qed.

(** C7.  After any history of events [clearSignature] leaves the empty
    drawing: no completed path, no path in progress, no buffered point, no
    stroke being drawn, and [getSignatureData] then returns the empty
    string. *)
Theorem C7_reset_gives_empty_drawing (toString : float -> string)
  (props : PR.Props) (history : list PR.Event) :
  exists c called c',
    PR.run toString props PR.mount history = Some (c, called)
    /\ PR.dispatch toString props c PR.callClearSignature = Some (c', [])
    /\ PR.completedPaths (PR.state c') = []
    /\ PR.currentPath (PR.state c') = ""
    /\ PR.currentPoints c' = []
    /\ PR.isDrawing (PR.state c') = false
    /\ PR.getSignatureData (PR.state c') = "".
Proof.
  destruct (run_total toString props history PR.mount) as (c & called & Hrun).
  exists c, called, (Shapes.atRest []).
  split; [exact Hrun |].
  split; [apply dispatch_clear |].
  repeat split.
Qed.

Example reset_after_strokes :
  PR.run ExactDecimal.toString {| PR.onSignatureChange := true |} PR.mount
    (strokeEvents (touch 1 1) [touch 3 1] PR.onPanResponderRelease
     ++ [PR.onPanResponderGrant (touch 2 2); PR.onPanResponderMove (touch 4 4);
         PR.callClearSignature])
  = Some (Shapes.atRest [], ["M1,1Q1,1 2,1"]).
Proof. vm_compute. reflexivity. Qed.

(** C8 as stated fails.  A start event in the middle of a stroke raises
    nothing and calls nothing; the two buffered points and the path of the
    stroke in progress are replaced by the new point and its move command,
    and the interrupted stroke is not among the completed paths. *)
Lemma C8_start_during_stroke_overwrites :
  PR.run ExactDecimal.toString {| PR.onSignatureChange := true |} PR.mount
    [PR.onPanResponderGrant (touch 0 0); PR.onPanResponderMove (touch 10 0)]
  = Some ({| PR.state := {| PR.completedPaths := [];
                            PR.currentPath := "M0,0Q0,0 5,0";
                            PR.isDrawing := true |};
             PR.currentPoints := [mkPoint 0 0; mkPoint 10 0] |},
          [])
  /\ PR.run ExactDecimal.toString {| PR.onSignatureChange := true |} PR.mount
       [PR.onPanResponderGrant (touch 0 0); PR.onPanResponderMove (touch 10 0);
        PR.onPanResponderGrant (touch 3 3)]
     = Some ({| PR.state := {| PR.completedPaths := [];
                               PR.currentPath := "M3,3";
                               PR.isDrawing := true |};
                PR.currentPoints := [mkPoint 3 3] |},
             []).
Proof. split; vm_compute; reflexivity. Qed.

(** C8, amended.  A start event that arrives while a stroke is being drawn
    is handled like any other start: no exception, no call of
    [onSignatureChange]; the buffered points become the new point alone, the
    path in progress becomes the move to it, a stroke is still being drawn
    and the completed paths are unchanged. *)
Theorem C8_start_during_stroke_restarts (toString : float -> string)
  (props : PR.Props) (c : PR.Component) (event : PR.GestureResponderEvent) :
  PR.isDrawing (PR.state c) = true ->
  exists c',
    PR.dispatch toString props c (PR.onPanResponderGrant event) = Some (c', [])
    /\ PR.currentPoints c' = [pointOfTouch event]
    /\ PR.currentPath (PR.state c')
       = "M" ++ toString (PR.locationX event) ++ "," ++ toString (PR.locationY event)
    /\ PR.isDrawing (PR.state c') = true
    /\ PR.completedPaths (PR.state c') = PR.completedPaths (PR.state c).
Proof.
  intros _. rewrite dispatch_grant. eexists. split; [reflexivity |].
  repeat split. cbn. now rewrite append_empty_r.
Qed.

(** A start at (3,3) during the stroke (0,0), (10,0). *)
Lemma C8_start_during_stroke_restarts_witness :
  PR.isDrawing
    (PR.state (Shapes.drawing ExactDecimal.toString [] [mkPoint 0 0; mkPoint 10 0]))
  = true
  /\ exists c',
       PR.dispatch ExactDecimal.toString {| PR.onSignatureChange := true |}
         (Shapes.drawing ExactDecimal.toString [] [mkPoint 0 0; mkPoint 10 0])
         (PR.onPanResponderGrant (touch 3 3))
       = Some (c', [])
       /\ PR.currentPoints c' = [mkPoint 3 3]
       /\ PR.currentPath (PR.state c') = "M3,3"
       /\ PR.isDrawing (PR.state c') = true
       /\ PR.completedPaths (PR.state c') = [].
Proof.
  split; [reflexivity |].
  exact (C8_start_during_stroke_restarts ExactDecimal.toString
           {| PR.onSignatureChange := true |}
           (Shapes.drawing ExactDecimal.toString [] [mkPoint 0 0; mkPoint 10 0])
           (touch 3 3) eq_refl).
Defined.

(** C9.  While no stroke is being drawn, a move event, a release and a
    termination each return without an exception and without a call of
    [onSignatureChange], and leave the component as it was: completed
    paths, path in progress and buffered points are unchanged. *)
Theorem C9_events_without_stroke_are_ignored (toString : float -> string)
  (props : PR.Props) (c : PR.Component) :
  PR.isDrawing (PR.state c) = false ->
  (forall event,
     PR.dispatch toString props c (PR.onPanResponderMove event) = Some (c, []))
  /\ PR.dispatch toString props c PR.onPanResponderRelease = Some (c, [])
  /\ PR.dispatch toString props c PR.onPanResponderTerminate = Some (c, []).
Proof.
  intros H. split; [| split].
  - intros event. now apply dispatch_move_not_drawing.
  - rewrite endStroke_dispatch by auto. now rewrite H.
  - rewrite endStroke_dispatch by auto. now rewrite H.
Qed.

(** Between strokes, with one completed path. *)
Lemma C9_events_without_stroke_are_ignored_witness :
  PR.isDrawing (PR.state (Shapes.atRest ["M1,1"])) = false
  /\ PR.dispatch ExactDecimal.toString {| PR.onSignatureChange := true |}
       (Shapes.atRest ["M1,1"]) (PR.onPanResponderMove (touch 4 4))
     = Some (Shapes.atRest ["M1,1"], [])
  /\ PR.dispatch ExactDecimal.toString {| PR.onSignatureChange := true |}
       (Shapes.atRest ["M1,1"]) PR.onPanResponderRelease
     = Some (Shapes.atRest ["M1,1"], [])
  /\ PR.dispatch ExactDecimal.toString {| PR.onSignatureChange := true |}
       (Shapes.atRest ["M1,1"]) PR.onPanResponderTerminate
     = Some (Shapes.atRest ["M1,1"], []).
Proof.
  split; [reflexivity |].
  destruct (C9_events_without_stroke_are_ignored ExactDecimal.toString
              {| PR.onSignatureChange := true |} (Shapes.atRest ["M1,1"]) eq_refl)
    as (Hmove & Hrelease & Hterminate).
  split; [apply Hmove |]. split; [exact Hrelease | exact Hterminate].
Defined.



(** * Further properties of the components *)

(** ** Reachable states of PanResponderSignature *)

Section PanResponderReachable.

Variable toString : float -> string.
Variable props : PanResponderSignature.Props.

Import PanResponderSignature CurvePath Shapes.

Lemma isStrokePath_commands (first : Point) (rest : list Point) :
  isStrokePath toString (svg toString (ofPoints (first :: rest))).
Proof.
  exists (first :: rest). split; [discriminate | apply pointsToSVGPath_commands].
Qed.

(** Between strokes or in a stroke with a point, every completed path
    being the path of a stroke. *)
Lemma dispatch_shape (completed : list string) (c0 : Component) (ev : Event) :
  Forall (isStrokePath toString) completed ->
  c0 = atRest completed
  \/ (exists p pts, c0 = drawing toString completed (p :: pts)) ->
  exists c called completed',
    dispatch toString props c0 ev = Some (c, called)
    /\ Forall (isStrokePath toString) completed'
    /\ (c = atRest completed'
        \/ exists p pts, c = drawing toString completed' (p :: pts))
    /\ Forall (fun payload => payload = join " " completed') called.
Proof.
  intros Hcs Hshape.
  assert (Hcompleted : completedPaths (state c0) = completed)
    by (destruct Hshape as [-> | (p & pts & ->)]; reflexivity).
  destruct ev as [event | event | | |].
  - rewrite dispatch_grant, Hcompleted.
    eexists _, [], completed. repeat split; eauto.
  - destruct Hshape as [-> | (p & pts & ->)].
    + rewrite dispatch_move_not_drawing by reflexivity.
      eexists _, [], completed. repeat split; eauto.
    + rewrite dispatch_move_drawing.
      eexists _, [], completed. repeat split; eauto.
      right. exists p, (pts ++ [pointOfTouch event])%list. reflexivity.
  - destruct Hshape as [-> | (p & pts & ->)].
    + eexists _, [], completed. repeat split; eauto.
    + rewrite dispatch_end_drawing by auto.
      eexists _, _, (completed ++ [svg toString (ofPoints (p :: pts))])%list.
      split; [reflexivity |].
      split; [apply Forall_app; split; [exact Hcs |];
              constructor; [apply isStrokePath_commands | constructor] |].
      split; [now left |].
      unfold notification. destruct (onSignatureChange props); repeat constructor.
  - destruct Hshape as [-> | (p & pts & ->)].
    + eexists _, [], completed. repeat split; eauto.
    + rewrite dispatch_end_drawing by auto.
      eexists _, _, (completed ++ [svg toString (ofPoints (p :: pts))])%list.
      split; [reflexivity |].
      split; [apply Forall_app; split; [exact Hcs |];
              constructor; [apply isStrokePath_commands | constructor] |].
      split; [now left |].
      unfold notification. destruct (onSignatureChange props); repeat constructor.
  - rewrite dispatch_clear. eexists _, [], []. repeat split; eauto.
Qed.

Lemma run_shape (evs : list Event) (completed : list string) (c0 : Component) :
  Forall (isStrokePath toString) completed ->
  c0 = atRest completed
  \/ (exists p pts, c0 = drawing toString completed (p :: pts)) ->
  exists c called completed',
    run toString props c0 evs = Some (c, called)
    /\ Forall (isStrokePath toString) completed'
    /\ (c = atRest completed'
        \/ exists p pts, c = drawing toString completed' (p :: pts))
    /\ Forall (fun payload =>
                 exists paths, Forall (isStrokePath toString) paths
                               /\ payload = join " " paths) called.
Proof.
  revert completed c0. induction evs as [| ev evs IH]; intros completed c0 Hcs Hshape.
  - exists c0, [], completed. repeat split; auto.
  - cbn [run].
    destruct (dispatch_shape completed c0 ev Hcs Hshape)
      as (c1 & called1 & completed1 & -> & Hcs1 & Hshape1 & Hcalled1).
    destruct (IH completed1 c1 Hcs1 Hshape1)
      as (c2 & called2 & completed2 & -> & Hcs2 & Hshape2 & Hcalled2).
    exists c2, (called1 ++ called2)%list, completed2.
    repeat split; auto.
    apply Forall_app. split; [| exact Hcalled2].
    eapply Forall_impl; [| exact Hcalled1].
    intros payload ->. eauto.
Qed.

(** The strokes of a list, one after the other. *)
Lemma run_strokes (strokes : list Stroke) (completed : list string) :
  run toString props (atRest completed)
      (concat (map panResponderStroke strokes))
  = Some (atRest (completed ++ map (strokePathData toString) strokes),
          flat_map (notification (onSignatureChange props))
            (cumulative completed (map (strokePathData toString) strokes))).
Proof.
  revert completed. induction strokes as [| s strokes IH]; intros completed.
  - cbn. now rewrite app_nil_r.
  - cbn [map concat cumulative flat_map]. rewrite run_app.
    unfold panResponderStroke at 1.
    rewrite run_stroke by apply strokeEnd_cases.
    cbn [atRest state completedPaths].
    fold (strokePoints s). fold (strokePathData toString s).
    rewrite IH, <- app_assoc. reflexivity.
Qed.

End PanResponderReachable.

(** ** Reachable states of CustomSignature *)

Section CustomReachable.

Variable toString : float -> string.
Variable props : CustomSignature.Props.

Import CustomSignature CurvePath Shapes.

(** Every reachable state has the shape of [sketch], every completed path
    being the path of a stroke. *)
Lemma custom_dispatch_shape (completed : list string) (points : list Point)
  (ev : Event) :
  Forall (isStrokePath toString) completed ->
  exists completed' points' called,
    dispatch toString props (sketch toString completed points) ev
    = Some (sketch toString completed' points', called)
    /\ Forall (isStrokePath toString) completed'.
Proof.
  intros Hcs. destruct ev as [event |].
  - rewrite dispatch_update. eauto.
  - destruct points as [| first rest].
    + rewrite dispatch_end_empty. eauto.
    + rewrite dispatch_end_stroke. eexists _, _, _. split; [reflexivity |].
      apply Forall_app. split; [exact Hcs |].
      constructor; [| constructor].
      exists (first :: rest). split; [discriminate | apply pointsToSVGPath_commands].
Qed.

Lemma custom_run_shape (evs : list Event) (completed : list string)
  (points : list Point) :
  Forall (isStrokePath toString) completed ->
  exists completed' points' called,
    run toString props (sketch toString completed points) evs
    = Some (sketch toString completed' points', called)
    /\ Forall (isStrokePath toString) completed'.
Proof.
  revert completed points.
  induction evs as [| ev evs IH]; intros completed points Hcs; cbn [run].
  - eauto.
  - destruct (custom_dispatch_shape completed points ev Hcs)
      as (c1 & p1 & called1 & -> & Hcs1).
    destruct (IH c1 p1 Hcs1) as (c2 & p2 & called2 & -> & Hcs2). eauto.
Qed.

End CustomReachable.

(** ** The characters of path data *)

Lemma allPathChars_append (a b : string) :
  allPathChars (a ++ b) = allPathChars a && allPathChars b.
Proof.
  induction a as [| ch a IH]; simpl; [reflexivity |].
  now rewrite IH, andb_assoc.
Qed.

Lemma numberChars_pathChars (s : string) :
  allNumberChars s = true -> allPathChars s = true.
Proof.
  induction s as [| ch s IH]; simpl; [reflexivity |].
  intros H. apply andb_prop in H as [Hch Hs].
  unfold pathChar. now rewrite Hch, IH.
Qed.

Lemma allPathChars_occurrences (c : ascii) (s : string) :
  pathChar c = false -> allPathChars s = true -> occurrences c s = 0.
Proof.
  intros Hc. induction s as [| a s IH]; simpl; [reflexivity |].
  intros H. apply andb_prop in H as [Ha Hs].
  destruct (Ascii.eqb_spec a c) as [-> |]; [congruence | now apply IH].
Qed.

Lemma join_pathChars (paths : list string) :
  Forall (fun path => allPathChars path = true) paths ->
  allPathChars (join " " paths) = true.
Proof.
  unfold join. induction paths as [| p paths IH]; intros H; [reflexivity |].
  inversion H as [| ? ? Hp Hps]; subst. cbn [String.concat].
  destruct paths as [| q paths]; [exact Hp |].
  rewrite !allPathChars_append, Hp, (IH Hps). reflexivity.
Qed.

Lemma stroke_path_truthy (toString : float -> string) (first : Point)
  (rest : list Point) :
  truthy (CurvePath.svg toString (CurvePath.ofPoints (first :: rest))) = true.
Proof. now rewrite svg_ofPoints_cons. Qed.

Section PathCharacters.

Variable toString : float -> string.
Hypothesis toString_numberChars : forall v, allNumberChars (toString v) = true.

Import CurvePath.

Lemma svgCommand_pathChars (c : Command) :
  allPathChars (svgCommand toString c) = true.
Proof.
  destruct c as [p | a d]; cbn [svgCommand];
    repeat (rewrite allPathChars_append; cbn [allPathChars append]);
    rewrite ?numberChars_pathChars by apply toString_numberChars; reflexivity.
Qed.

Lemma svg_pathChars (cs : list Command) : allPathChars (svg toString cs) = true.
Proof.
  induction cs as [| c cs IH]; [reflexivity |].
  cbn [svg]. now rewrite allPathChars_append, svgCommand_pathChars, IH.
Qed.

Lemma isStrokePath_pathChars (path : string) :
  isStrokePath toString path -> allPathChars path = true.
Proof.
  intros (points & _ & H). rewrite pointsToSVGPath_commands in H.
  injection H as <-. apply svg_pathChars.
Qed.

Lemma strokePaths_join_pathChars (paths : list string) :
  Forall (isStrokePath toString) paths -> allPathChars (join " " paths) = true.
Proof.
  intros H. apply join_pathChars.
  eapply Forall_impl; [| exact H]. apply isStrokePath_pathChars.
Qed.

End PathCharacters.

(** ** Properties of PanResponderSignature and CustomSignature *)

(** X1.  After any history of events [PanResponderSignature] is either
    between strokes, with no buffered point and an empty current path, or
    in a stroke, with at least one buffered point and the current path
    that [pointsToSVGPath] gives for the buffered points; and every
    completed path is the path of a stroke with at least one point. *)
Theorem panResponder_state_is_coherent (toString : float -> string)
  (props : PR.Props) (history : list PR.Event) :
  exists c called,
    PR.run toString props PR.mount history = Some (c, called)
    /\ ((PR.isDrawing (PR.state c) = false
         /\ PR.currentPoints c = []
         /\ PR.currentPath (PR.state c) = "")
        \/ (PR.isDrawing (PR.state c) = true
            /\ PR.currentPoints c <> []
            /\ PR.pointsToSVGPath toString (PR.currentPoints c)
               = Some (PR.currentPath (PR.state c))))
    /\ Forall (fun path =>
                 exists points : list Point,
                   points <> []
                   /\ PR.pointsToSVGPath toString points = Some path)
              (PR.completedPaths (PR.state c)).
Proof.
  destruct (run_shape toString props history [] PR.mount (Forall_nil _)
              (or_introl eq_refl))
    as (c & called & completed & Hrun & Hcs & Hshape & _).
  exists c, called. split; [exact Hrun |].
  destruct Hshape as [-> | (p & pts & ->)].
  - split; [left; repeat split | exact Hcs].
  - split; [right | exact Hcs].
    split; [reflexivity |]. split; [discriminate |].
    apply pointsToSVGPath_commands.
Qed.

(** X2.  A release or a termination never changes what [getSignatureData]
    returns, from any component state: the path in progress moves to the
    completed paths, or nothing happens.  What the event passes to
    [onSignatureChange] is what [getSignatureData] returned before it. *)
Theorem ending_a_stroke_keeps_the_serialized_drawing (toString : float -> string)
  (props : PR.Props) (c : PR.Component) (cancelled : bool) :
  exists c' called,
    PR.dispatch toString props c (strokeEnd cancelled) = Some (c', called)
    /\ PR.getSignatureData (PR.state c') = PR.getSignatureData (PR.state c)
    /\ Forall (fun payload => payload = PR.getSignatureData (PR.state c)) called.
Proof.
  rewrite (endStroke_dispatch toString props c _ (strokeEnd_cases cancelled)).
  destruct c as [[completed current active] points].
  cbn [PR.state PR.isDrawing PR.currentPath PR.completedPaths].
  destruct active; cbn [negb orb].
  - destruct (current =? "") eqn:Hcurrent.
    + eexists _, []. repeat split; constructor.
    + eexists _, _. split; [reflexivity |].
      rewrite getSignatureData_atRest.
      unfold PR.getSignatureData, truthy.
      cbn [PR.currentPath PR.completedPaths]. rewrite Hcurrent. cbn [negb].
      split; [reflexivity |].
      unfold notification. destruct (PR.onSignatureChange props); repeat constructor.
  - eexists _, []. repeat split; constructor.
Qed.

(** X3.  Strokes drawn one after the other, starting between strokes, are
    completed in order, and the notifications are cumulative: the k-th one
    carries the earlier completed paths and the paths of the first k
    strokes, joined by single spaces.  The path of a stroke is what
    [pointsToSVGPath] returns for its points. *)
Theorem strokes_notify_cumulatively (toString : float -> string)
  (props : PR.Props) (completed : list string) (strokes : list Stroke) :
  PR.run toString props (Shapes.atRest completed)
         (concat (map panResponderStroke strokes))
  = Some (Shapes.atRest (completed ++ map (strokePathData toString) strokes),
          flat_map (notification (PR.onSignatureChange props))
            (cumulative completed (map (strokePathData toString) strokes)))
  /\ Forall (fun s => PR.pointsToSVGPath toString (strokePoints s)
                     = Some (strokePathData toString s)) strokes.
Proof.
  split; [apply run_strokes |].
  apply Forall_forall. intros s _. apply pointsToSVGPath_commands.
Qed.

(** X4.  After any history of events, each followed by a render,
    [CustomSignature] holds an empty path exactly when it holds no buffered
    point, so the guard of a [finalizePath] that belongs to that render is
    a guard on the buffer; and every completed path is the path of a stroke
    with at least one point, never the empty string. *)
Theorem custom_state_is_coherent (toString : float -> string)
  (props : CS.Props) (history : list CS.Event) :
  exists c called,
    CS.run toString props CS.mount history = Some (c, called)
    /\ (CS.pathData (CS.state c) = "" <-> CS.currentPath c = [])
    /\ Forall (fun path =>
                 path <> ""
                 /\ exists points : list Point,
                      points <> []
                      /\ PR.pointsToSVGPath toString points = Some path)
              (CS.paths (CS.state c)).
Proof.
  destruct (custom_run_shape toString props history [] [] (Forall_nil _))
    as (completed & points & called & Hrun & Hcs).
  exists (Shapes.sketch toString completed points), called.
  split; [exact Hrun |]. split.
  - cbn [Shapes.sketch CS.state CS.pathData CS.currentPath].
    destruct points as [| first rest]; [split; reflexivity |].
    rewrite svg_ofPoints_cons. split; discriminate.
  - cbn [Shapes.sketch CS.state CS.paths].
    eapply Forall_impl; [| exact Hcs].
    intros path (pts & Hne & Hpath). split; [| eauto].
    destruct pts as [| first rest]; [congruence |].
    rewrite pointsToSVGPath_commands, svg_ofPoints_cons in Hpath.
    injection Hpath as <-. discriminate.
Qed.

(** X6.  Adding a point to a buffer that holds one leaves the path text
    built so far in place: the rebuilt path is the path before, followed
    by one curve segment whose control point is the last point before and
    whose end is the midpoint to the new point. *)
Theorem rebuilt_path_extends_previous_path (toString : float -> string)
  (init : list Point) (prev p : Point) :
  exists path,
    PR.pointsToSVGPath toString (init ++ [prev]) = Some path
    /\ PR.pointsToSVGPath toString ((init ++ [prev]) ++ [p])
       = Some (path ++ "Q" ++ toString (x prev) ++ "," ++ toString (y prev)
                    ++ " " ++ toString (half_sum (x prev) (x p))
                    ++ "," ++ toString (half_sum (y prev) (y p))).
Proof.
  exists (CurvePath.svg toString (CurvePath.ofPoints (init ++ [prev]))).
  split; [apply pointsToSVGPath_commands |].
  rewrite pointsToSVGPath_commands, ofPoints_snoc, svg_app.
  cbn [CurvePath.svg CurvePath.svgCommand CurvePath.midpoint x y].
  now rewrite append_empty_r.
Qed.

(** X7.  With numbers written in number characters, everything the
    component hands out is made of path characters only (the letters M and
    Q, comma, space and number characters): what [getSignatureData]
    returns after any history, and every string passed to
    [onSignatureChange].  In particular none contains a double quote. *)
Theorem serialized_drawing_has_path_characters_only (toString : float -> string)
  (toString_numberChars : forall v, allNumberChars (toString v) = true)
  (props : PR.Props) (history : list PR.Event) :
  exists c called,
    PR.run toString props PR.mount history = Some (c, called)
    /\ allPathChars (PR.getSignatureData (PR.state c)) = true
    /\ occurrences (Ascii.ascii_of_nat 34) (PR.getSignatureData (PR.state c)) = 0
    /\ Forall (fun payload =>
                 allPathChars payload = true
                 /\ occurrences (Ascii.ascii_of_nat 34) payload = 0) called.
Proof.
  destruct (run_shape toString props history [] PR.mount (Forall_nil _)
              (or_introl eq_refl))
    as (c & called & completed & Hrun & Hcs & Hshape & Hcalled).
  exists c, called. split; [exact Hrun |].
  assert (Hdata : allPathChars (PR.getSignatureData (PR.state c)) = true).
  { destruct Hshape as [-> | (p & pts & ->)].
    - rewrite getSignatureData_atRest.
      now apply (strokePaths_join_pathChars toString).
    - unfold PR.getSignatureData.
      cbn [Shapes.drawing PR.state PR.currentPath PR.completedPaths].
      rewrite stroke_path_truthy.
      apply (strokePaths_join_pathChars toString toString_numberChars).
      apply Forall_app. split; [exact Hcs |].
      constructor; [apply isStrokePath_commands | constructor]. }
  split; [exact Hdata |].
  split; [apply allPathChars_occurrences; [reflexivity | exact Hdata] |].
  eapply Forall_impl; [| exact Hcalled].
  intros payload (paths & Hpaths & ->).
  assert (H : allPathChars (join " " paths) = true)
    by now apply (strokePaths_join_pathChars toString).
  split; [exact H |]. now apply allPathChars_occurrences.
Qed.

(** Two strokes with a repeated point, numbers written in decimal. *)
Lemma serialized_drawing_has_path_characters_only_witness :
  (forall v, allNumberChars (ExactDecimal.toString v) = true)
  /\ exists c called,
       PR.run ExactDecimal.toString {| PR.onSignatureChange := true |} PR.mount
         (strokeEvents (touch 1 1) [touch 1 1; touch 2.5 4] PR.onPanResponderRelease
          ++ [PR.onPanResponderGrant (touch 3 3)])
       = Some (c, called)
       /\ allPathChars (PR.getSignatureData (PR.state c)) = true
       /\ occurrences (Ascii.ascii_of_nat 34) (PR.getSignatureData (PR.state c)) = 0
       /\ Forall (fun payload =>
                    allPathChars payload = true
                    /\ occurrences (Ascii.ascii_of_nat 34) payload = 0) called.
Proof.
  split; [exact exactDecimal_numberChars |].
  exact (serialized_drawing_has_path_characters_only ExactDecimal.toString
           exactDecimal_numberChars {| PR.onSignatureChange := true |}
           (strokeEvents (touch 1 1) [touch 1 1; touch 2.5 4] PR.onPanResponderRelease
            ++ [PR.onPanResponderGrant (touch 3 3)])).
Defined.

(** ** CanvasSignature, event by event *)

Lemma last_cons {A : Type} (l : list A) (a d : A) :
  List.last (a :: l) d = List.last l a.
Proof.
  revert a d. induction l as [| b l IH]; intros a d; [reflexivity |].
  change (List.last (a :: b :: l) d) with (List.last (b :: l) d).
  now rewrite (IH b d), (IH b a).
Qed.

Section CanvasEvents.

Variable props : CanvasSignature.Props.

Import CanvasSignature.

(** A component that holds a 2d context. *)
Lemma dispatch_canvas_grant (c : Component) (event : PanResponderSignature.GestureResponderEvent) :
  context c = Some Context2d ->
  dispatch props c (onPanResponderGrant event)
  = Some ({| state := {| isDrawing := true |};
             canvas := canvas c; context := Some Context2d;
             last := Some (pointOfTouch event) |},
          [BeginPath;
           MoveTo (PanResponderSignature.locationX event)
                  (PanResponderSignature.locationY event)]).
Proof.
  intros H. destruct c as [[d] cv ctx l]. cbn in H. subst ctx. reflexivity.
Qed.

Lemma dispatch_canvas_move (cv : option Canvas) (prev : Point)
  (event : PanResponderSignature.GestureResponderEvent) :
  dispatch props
    {| state := {| isDrawing := true |}; canvas := cv;
       context := Some Context2d; last := Some prev |}
    (onPanResponderMove event)
  = Some ({| state := {| isDrawing := true |}; canvas := cv;
             context := Some Context2d; last := Some (pointOfTouch event) |},
          opsOfCommand
            (CurvePath.QuadraticCurveTo prev
               (CurvePath.midpoint prev (pointOfTouch event)))).
Proof. reflexivity. Qed.

Lemma run_canvas_moves (moves : list PanResponderSignature.GestureResponderEvent)
  (cv : option Canvas) (prev : Point) :
  run props
    {| state := {| isDrawing := true |}; canvas := cv;
       context := Some Context2d; last := Some prev |}
    (map onPanResponderMove moves)
  = Some ({| state := {| isDrawing := true |}; canvas := cv;
             context := Some Context2d;
             last := Some (List.last (map pointOfTouch moves) prev) |},
          flat_map opsOfCommand
            (CurvePath.curves prev (map pointOfTouch moves))).
Proof.
  revert prev. induction moves as [| m moves IH]; intros prev; [reflexivity |].
  cbn [map run]. rewrite dispatch_canvas_move, IH.
  cbn [CurvePath.curves flat_map]. now rewrite last_cons.
Qed.

Lemma run_canvas_app (c : Component) (evs evs' : list Event) :
  run props c (evs ++ evs')
  = match run props c evs with
    | None => None
    | Some (c', done) =>
        match run props c' evs' with
        | None => None
        | Some (c'', done') => Some (c'', (done ++ done')%list)
        end
    end.
Proof.
  revert c. induction evs as [| ev evs IH]; intros c; cbn [app run].
  - destruct (run props c evs') as [[c'' done'] |]; reflexivity.
  - destruct (dispatch props c ev) as [[c' done] |]; [| reflexivity].
    rewrite IH. destruct (run props c' evs) as [[c1 done1] |]; [| reflexivity].
    destruct (run props c1 evs') as [[c2 done2] |]; [| reflexivity].
    now rewrite app_assoc.
Qed.

(** The start and the moves of a stroke. *)
Lemma run_canvas_stroke (c : Component)
  (first : PanResponderSignature.GestureResponderEvent)
  (moves : list PanResponderSignature.GestureResponderEvent) :
  context c = Some Context2d ->
  run props c (onPanResponderGrant first :: map onPanResponderMove moves)
  = Some ({| state := {| isDrawing := true |}; canvas := canvas c;
             context := Some Context2d;
             last := Some (List.last (map pointOfTouch moves) (pointOfTouch first)) |},
          flat_map opsOfCommand
            (CurvePath.ofPoints (map pointOfTouch (first :: moves)))).
Proof.
  intros H. cbn [run]. rewrite (dispatch_canvas_grant c first H).
  rewrite run_canvas_moves. reflexivity.
Qed.

(** Without a stroke, moves and ends do nothing. *)
Lemma dispatch_canvas_stray (c : Component) (ev : Event) :
  isDrawing (state c) = false ->
  match ev with
  | onPanResponderMove _ | onPanResponderRelease | onPanResponderTerminate => true
  | _ => false
  end = true ->
  dispatch props c ev = Some (c, []).
Proof.
  intros Hd Hev. destruct c as [[d] cv ctx l]. cbn in Hd. subst d.
  destruct ev; try discriminate; destruct ctx as [[] |], l; reflexivity.
Qed.

Lemma run_canvas_strays (c : Component) (evs : list Event) :
  isDrawing (state c) = false ->
  forallb (fun ev =>
             match ev with
             | onPanResponderMove _ | onPanResponderRelease
             | onPanResponderTerminate => true
             | _ => false
             end) evs = true ->
  run props c evs = Some (c, []).
Proof.
  intros Hd. induction evs as [| ev evs IH]; [reflexivity |].
  cbn [forallb run]. intros H. apply andb_prop in H as [Hev Hevs].
  rewrite (dispatch_canvas_stray c ev Hd Hev), (IH Hevs). reflexivity.
Qed.

(** Without a context, only [handleCanvas] with an element does anything. *)
Lemma dispatch_canvas_no_context (c : Component) (ev : Event) :
  context c = None ->
  (forall element, ev <> callHandleCanvas (Some element)) ->
  dispatch props c ev = Some (c, []).
Proof.
  intros Hc Hev. destruct c as [[d] cv ctx l]. cbn in Hc. subst ctx.
  destruct ev as [event | event | | | | [element |]]; try reflexivity.
  now destruct (Hev element).
Qed.

End CanvasEvents.

(** ** Properties of CanvasSignature *)

(** X8.  While [CanvasSignature] holds no 2d context it is inert: touch
    events and [clearSignature] do nothing to the canvas, request no image
    and leave the component as it is.  The component as mounted holds none,
    and only [handleCanvas], called with a canvas element, sets one. *)
Theorem canvas_without_context_is_inert (props : CV.Props) (c : CV.Component)
  (evs : list CV.Event) :
  CV.context c = None ->
  (forall element, ~ In (CV.callHandleCanvas (Some element)) evs) ->
  CV.run props c evs = Some (c, [])
  /\ CV.context CV.mount = None.
Proof.
  intros Hc Hevs. split; [| reflexivity].
  induction evs as [| ev evs IH]; [reflexivity |].
  cbn [CV.run].
  rewrite (dispatch_canvas_no_context props c ev Hc).
  - rewrite IH; [reflexivity |].
    intros element Hin. apply (Hevs element). now right.
  - intros element ->. apply (Hevs element). now left.
Qed.

(** A whole gesture and a clear on the component as mounted. *)
Lemma canvas_without_context_is_inert_witness :
  CV.context CV.mount = None
  /\ (forall element,
        ~ In (CV.callHandleCanvas (Some element))
             [CV.onPanResponderGrant (touch 0 0); CV.onPanResponderMove (touch 10 0);
              CV.onPanResponderRelease; CV.callClearSignature])
  /\ CV.run {| CV.width := 300; CV.height := 200; CV.strokeColor := "#000000";
               CV.strokeWidth := 3; CV.backgroundColor := "#ffffff";
               CV.onSignatureChange := true |}
       CV.mount
       [CV.onPanResponderGrant (touch 0 0); CV.onPanResponderMove (touch 10 0);
        CV.onPanResponderRelease; CV.callClearSignature]
     = Some (CV.mount, []).
Proof.
  assert (Hevs : forall element,
             ~ In (CV.callHandleCanvas (Some element))
                  [CV.onPanResponderGrant (touch 0 0);
                   CV.onPanResponderMove (touch 10 0);
                   CV.onPanResponderRelease; CV.callClearSignature]).
  { intros element [H | [H | [H | [H | []]]]]; discriminate. }
  split; [reflexivity |]. split; [exact Hevs |].
  exact (proj1 (canvas_without_context_is_inert _ CV.mount _ eq_refl Hevs)).
Defined.

(** X9.  With a 2d context, the start and the moves of a stroke draw the
    curve path of its points, the one [pointsToSVGPath] writes as text: a
    [beginPath] and a [moveTo] the first point, then for every later point
    a [quadraticCurveTo] with the point before as control point and the
    midpoint as end, followed by a [stroke]; nothing else is done to the
    canvas, and the last point is remembered. *)
Theorem canvas_stroke_draws_the_curve_path (toString : float -> string)
  (props : CV.Props) (c : CV.Component)
  (first : PR.GestureResponderEvent) (moves : list PR.GestureResponderEvent) :
  CV.context c = Some CV.Context2d ->
  exists c',
    CV.run props c (CV.onPanResponderGrant first :: map CV.onPanResponderMove moves)
    = Some (c', flat_map CV.opsOfCommand
                  (CurvePath.ofPoints (map pointOfTouch (first :: moves))))
    /\ CV.isDrawing (CV.state c') = true
    /\ CV.last c' = Some (List.last (map pointOfTouch moves) (pointOfTouch first))
    /\ PR.pointsToSVGPath toString (map pointOfTouch (first :: moves))
       = Some (CurvePath.svg toString
                 (CurvePath.ofPoints (map pointOfTouch (first :: moves)))).
Proof.
  intros H. eexists. split; [apply run_canvas_stroke; exact H |].
  repeat split. apply pointsToSVGPath_commands.
Qed.

(** The stroke (0,0), (10,0), (10,10) on a canvas set up by [handleCanvas]. *)
Lemma canvas_stroke_draws_the_curve_path_witness :
  CV.run {| CV.width := 300; CV.height := 200; CV.strokeColor := "#000000";
            CV.strokeWidth := 3; CV.backgroundColor := "#ffffff";
            CV.onSignatureChange := true |}
    CV.mount [CV.callHandleCanvas (Some {| CV.provides2d := true |})]
  = Some ({| CV.state := {| CV.isDrawing := false |};
             CV.canvas := Some {| CV.provides2d := true |};
             CV.context := Some CV.Context2d; CV.last := None |},
          [CV.SetCanvasWidth 300; CV.SetCanvasHeight 200; CV.GetContext2d;
           CV.SetStrokeStyle "#000000"; CV.SetLineWidth 3; CV.SetLineCap "round";
           CV.SetLineJoin "round"; CV.SetImageSmoothingEnabled true;
           CV.SetFillStyle "#ffffff"; CV.FillRect 0 0 300 200])
  /\ exists c',
       CV.run {| CV.width := 300; CV.height := 200; CV.strokeColor := "#000000";
                 CV.strokeWidth := 3; CV.backgroundColor := "#ffffff";
                 CV.onSignatureChange := true |}
         {| CV.state := {| CV.isDrawing := false |};
            CV.canvas := Some {| CV.provides2d := true |};
            CV.context := Some CV.Context2d; CV.last := None |}
         [CV.onPanResponderGrant (touch 0 0); CV.onPanResponderMove (touch 10 0);
          CV.onPanResponderMove (touch 10 10)]
       = Some (c', [CV.BeginPath; CV.MoveTo 0 0;
                    CV.QuadraticCurveTo 0 0 5 0; CV.Stroke;
                    CV.QuadraticCurveTo 10 0 10 5; CV.Stroke])
       /\ CV.last c' = Some (mkPoint 10 10).
Proof.
  split; [reflexivity |].
  destruct (canvas_stroke_draws_the_curve_path ExactDecimal.toString
              {| CV.width := 300; CV.height := 200; CV.strokeColor := "#000000";
                 CV.strokeWidth := 3; CV.backgroundColor := "#ffffff";
                 CV.onSignatureChange := true |}
              {| CV.state := {| CV.isDrawing := false |};
                 CV.canvas := Some {| CV.provides2d := true |};
                 CV.context := Some CV.Context2d; CV.last := None |}
              (touch 0 0) [touch 10 0; touch 10 10] eq_refl)
    as (c' & Hrun & _ & Hlast & _).
  exists c'. split; [exact Hrun | exact Hlast].
Defined.

(** X10.  A gesture on a canvas with a context (start, moves, then release
    or termination) draws the stroke and ends it: [toDataURL] is called
    once, and only if a canvas element is held and [onSignatureChange] was
    supplied.  Moves, releases and terminations that follow without a new
    start do nothing. *)
Theorem canvas_gesture_ends_the_stroke (props : CV.Props) (c : CV.Component)
  (first : PR.GestureResponderEvent) (moves : list PR.GestureResponderEvent)
  (cancelled : bool) (strays : list CV.Event) :
  CV.context c = Some CV.Context2d ->
  forallb (fun ev =>
             match ev with
             | CV.onPanResponderMove _ | CV.onPanResponderRelease
             | CV.onPanResponderTerminate => true
             | _ => false
             end) strays = true ->
  CV.run props c
    ((CV.onPanResponderGrant first :: map CV.onPanResponderMove moves)
     ++ [if cancelled then CV.onPanResponderTerminate else CV.onPanResponderRelease]
     ++ strays)%list
  = Some ({| CV.state := {| CV.isDrawing := false |};
             CV.canvas := CV.canvas c;
             CV.context := Some CV.Context2d;
             CV.last := None |},
          (flat_map CV.opsOfCommand
             (CurvePath.ofPoints (map pointOfTouch (first :: moves)))
           ++ match CV.canvas c with
              | Some _ => if CV.onSignatureChange props then [CV.ToDataURL] else []
              | None => []
              end)%list).
Proof.
  intros Hc Hstrays.
  rewrite run_canvas_app, (run_canvas_stroke props c first moves Hc).
  rewrite run_canvas_app.
  assert (Hend : CV.run props
            {| CV.state := {| CV.isDrawing := true |}; CV.canvas := CV.canvas c;
               CV.context := Some CV.Context2d;
               CV.last := Some (List.last (map pointOfTouch moves) (pointOfTouch first)) |}
            [if cancelled then CV.onPanResponderTerminate else CV.onPanResponderRelease]
          = Some ({| CV.state := {| CV.isDrawing := false |};
                     CV.canvas := CV.canvas c;
                     CV.context := Some CV.Context2d; CV.last := None |},
                  match CV.canvas c with
                  | Some _ => if CV.onSignatureChange props then [CV.ToDataURL] else []
                  | None => []
                  end)).
  { destruct cancelled, (CV.canvas c), props as [w h sc sw bg []]; reflexivity. }
  rewrite Hend.
  rewrite (run_canvas_strays props
             {| CV.state := {| CV.isDrawing := false |}; CV.canvas := CV.canvas c;
                CV.context := Some CV.Context2d; CV.last := None |}
             strays eq_refl Hstrays).
  now rewrite !app_nil_r.
Qed.

(** A tap cancelled by the system, then a late move and a late release. *)
Lemma canvas_gesture_ends_the_stroke_witness :
  CV.run {| CV.width := 300; CV.height := 200; CV.strokeColor := "#000000";
            CV.strokeWidth := 3; CV.backgroundColor := "#ffffff";
            CV.onSignatureChange := true |}
    {| CV.state := {| CV.isDrawing := false |};
       CV.canvas := Some {| CV.provides2d := true |};
       CV.context := Some CV.Context2d; CV.last := None |}
    [CV.onPanResponderGrant (touch 0 0); CV.onPanResponderMove (touch 10 0);
     CV.onPanResponderTerminate;
     CV.onPanResponderMove (touch 20 0); CV.onPanResponderRelease]
  = Some ({| CV.state := {| CV.isDrawing := false |};
             CV.canvas := Some {| CV.provides2d := true |};
             CV.context := Some CV.Context2d; CV.last := None |},
          [CV.BeginPath; CV.MoveTo 0 0; CV.QuadraticCurveTo 0 0 5 0; CV.Stroke;
           CV.ToDataURL]).
Proof.
  exact (canvas_gesture_ends_the_stroke
           {| CV.width := 300; CV.height := 200; CV.strokeColor := "#000000";
              CV.strokeWidth := 3; CV.backgroundColor := "#ffffff";
              CV.onSignatureChange := true |}
           {| CV.state := {| CV.isDrawing := false |};
              CV.canvas := Some {| CV.provides2d := true |};
              CV.context := Some CV.Context2d; CV.last := None |}
           (touch 0 0) [touch 10 0] true
           [CV.onPanResponderMove (touch 20 0); CV.onPanResponderRelease]
           eq_refl eq_refl).
Defined.

(** X11.  [clearSignature] of [CanvasSignature] repaints the background
    and leaves the stroke in progress alone: after it, the next move draws
    a curve from the last point of before the clear, with no [beginPath]
    and no [moveTo] in between, and the stroke is still being drawn. *)
Theorem canvas_clear_keeps_the_stroke (props : CV.Props) (c : CV.Component)
  (first : PR.GestureResponderEvent) (moves : list PR.GestureResponderEvent)
  (next : PR.GestureResponderEvent) :
  CV.context c = Some CV.Context2d ->
  CV.run props c
    ((CV.onPanResponderGrant first :: map CV.onPanResponderMove moves)
     ++ [CV.callClearSignature; CV.onPanResponderMove next])%list
  = Some ({| CV.state := {| CV.isDrawing := true |};
             CV.canvas := CV.canvas c;
             CV.context := Some CV.Context2d;
             CV.last := Some (pointOfTouch next) |},
          (flat_map CV.opsOfCommand
             (CurvePath.ofPoints (map pointOfTouch (first :: moves)))
           ++ [CV.ClearRect 0 0 (CV.width props) (CV.height props);
               CV.SetFillStyle (CV.backgroundColor props);
               CV.FillRect 0 0 (CV.width props) (CV.height props)]
           ++ CV.opsOfCommand
                (CurvePath.QuadraticCurveTo
                   (List.last (map pointOfTouch moves) (pointOfTouch first))
                   (CurvePath.midpoint
                      (List.last (map pointOfTouch moves) (pointOfTouch first))
                      (pointOfTouch next))))%list).
Proof.
  intros Hc.
  rewrite run_canvas_app, (run_canvas_stroke props c first moves Hc).
  reflexivity.
Qed.

(** A clear between the second and the third point of a stroke. *)
Lemma canvas_clear_keeps_the_stroke_witness :
  CV.run {| CV.width := 300; CV.height := 200; CV.strokeColor := "#000000";
            CV.strokeWidth := 3; CV.backgroundColor := "#ffffff";
            CV.onSignatureChange := true |}
    {| CV.state := {| CV.isDrawing := false |};
       CV.canvas := Some {| CV.provides2d := true |};
       CV.context := Some CV.Context2d; CV.last := None |}
    [CV.onPanResponderGrant (touch 0 0); CV.onPanResponderMove (touch 10 0);
     CV.callClearSignature; CV.onPanResponderMove (touch 10 10)]
  = Some ({| CV.state := {| CV.isDrawing := true |};
             CV.canvas := Some {| CV.provides2d := true |};
             CV.context := Some CV.Context2d; CV.last := Some (mkPoint 10 10) |},
          [CV.BeginPath; CV.MoveTo 0 0; CV.QuadraticCurveTo 0 0 5 0; CV.Stroke;
           CV.ClearRect 0 0 300 200; CV.SetFillStyle "#ffffff";
           CV.FillRect 0 0 300 200;
           CV.QuadraticCurveTo 10 0 10 5; CV.Stroke]).
Proof.
  exact (canvas_clear_keeps_the_stroke
           {| CV.width := 300; CV.height := 200; CV.strokeColor := "#000000";
              CV.strokeWidth := 3; CV.backgroundColor := "#ffffff";
              CV.onSignatureChange := true |}
           {| CV.state := {| CV.isDrawing := false |};
              CV.canvas := Some {| CV.provides2d := true |};
              CV.context := Some CV.Context2d; CV.last := None |}
           (touch 0 0) [touch 10 0] (touch 10 10) eq_refl).
Defined.

(** ** The screens, event by event *)

Section PanResponderScreen.

Variable toString : float -> string.
Variable window : Window.

Import PanResponderSignature Shapes.

Let supplied : Props := {| onSignatureChange := true |}.

(** With the callback supplied, a touch event either calls nothing and
    leaves the completed paths alone, or ends a stroke and passes on the
    completed paths it leaves, joined. *)
Lemma dispatch_pan_called (c c' : Component) (ev : PanEvent) (called : list string) :
  dispatch toString supplied c (panResponderEvent ev) = Some (c', called) ->
  (called = [] /\ completedPaths (state c') = completedPaths (state c))
  \/ called = [join " " (completedPaths (state c'))].
Proof.
  assert (Hend : forall ev0, ev0 = onPanResponderRelease \/ ev0 = onPanResponderTerminate ->
    dispatch toString supplied c ev0 = Some (c', called) ->
    (called = [] /\ completedPaths (state c') = completedPaths (state c))
    \/ called = [join " " (completedPaths (state c'))]).
  { intros ev0 H0. rewrite (endStroke_dispatch toString supplied c ev0 H0).
    destruct (negb _ || _); intros [= <- <-]; [now left | now right]. }
  destruct ev as [event | event | |]; cbn [panResponderEvent].
  - rewrite dispatch_grant. intros [= <- <-]. now left.
  - destruct (isDrawing (state c)) eqn:H.
    + rewrite dispatch_move_active by exact H. intros [= <- <-]. now left.
    + rewrite dispatch_move_not_drawing by exact H. intros [= <- <-]. now left.
  - apply Hend. auto.
  - apply Hend. auto.
Qed.



(** What the screen keeps is empty or the completed paths of its
    component, joined; it is the latter as long as Clear is not pressed. *)
Lemma screen_dispatch_coherent (s : PRS.Screen) (ev : PRS.Event)
  (completed : list string) :
  Forall (isStrokePath toString) completed ->
  PRS.signature s = atRest completed
  \/ (exists p pts, PRS.signature s = drawing toString completed (p :: pts)) ->
  PRS.signatureData s = "" \/ PRS.signatureData s = join " " completed ->
  exists s' calls completed',
    PRS.dispatch toString window s ev = Some (s', calls)
    /\ Forall (isStrokePath toString) completed'
    /\ (PRS.signature s' = atRest completed'
        \/ exists p pts, PRS.signature s' = drawing toString completed' (p :: pts))
    /\ (PRS.signatureData s' = "" \/ PRS.signatureData s' = join " " completed')
    /\ (ev <> PRS.pressClear ->
        PRS.signatureData s = join " " completed ->
        PRS.signatureData s' = join " " completed').
Proof.
  intros Hcs Hshape Hdata. destruct ev as [pan | |].
  - cbn [PRS.dispatch]. fold supplied.
    destruct (dispatch_shape toString supplied completed (PRS.signature s)
                (panResponderEvent pan) Hcs Hshape)
      as (c1 & called & completed1 & Hd & Hcs1 & Hshape1 & _).
    rewrite Hd.
    assert (Hcompleted1 : completedPaths (state c1) = completed1)
      by (destruct Hshape1 as [-> | (p & pts & ->)]; reflexivity).
    assert (Hcompleted : completedPaths (state (PRS.signature s)) = completed)
      by (destruct Hshape as [-> | (p & pts & ->)]; reflexivity).
    eexists _, [], completed1. split; [reflexivity |].
    split; [exact Hcs1 |]. split; [exact Hshape1 |].
    cbn [PRS.signatureData PRS.signature].
    destruct (dispatch_pan_called _ _ _ _ Hd) as [[-> Hsame] | ->].
    + assert (Heq : completed1 = completed) by congruence.
      rewrite Heq. cbn [fold_left]. split; [exact Hdata | auto].
    + rewrite Hcompleted1. cbn [fold_left PRS.handleSignatureChange]. auto.
  - exists s, (PRS.copySVG toString window s), completed. repeat split; auto.
  - eexists (PRS.clearSignature s), [], completed.
    repeat split; auto. intros H. now destruct H.
Qed.

Lemma screen_run_coherent (evs : list PRS.Event) (s : PRS.Screen)
  (completed : list string) :
  Forall (isStrokePath toString) completed ->
  PRS.signature s = atRest completed
  \/ (exists p pts, PRS.signature s = drawing toString completed (p :: pts)) ->
  PRS.signatureData s = "" \/ PRS.signatureData s = join " " completed ->
  exists s' calls completed',
    PRS.run toString window s evs = Some (s', calls)
    /\ Forall (isStrokePath toString) completed'
    /\ completedPaths (state (PRS.signature s')) = completed'
    /\ (PRS.signatureData s' = "" \/ PRS.signatureData s' = join " " completed')
    /\ (~ In PRS.pressClear evs ->
        PRS.signatureData s = join " " completed ->
        PRS.signatureData s' = join " " completed').
Proof.
  revert s completed.
  induction evs as [| ev evs IH]; intros s completed Hcs Hshape Hdata.
  - exists s, [], completed. repeat split; auto.
    destruct Hshape as [-> | (p & pts & ->)]; reflexivity.
  - cbn [PRS.run].
    destruct (screen_dispatch_coherent s ev completed Hcs Hshape Hdata)
      as (s1 & calls1 & completed1 & -> & Hcs1 & Hshape1 & Hdata1 & Hstrict1).
    destruct (IH s1 completed1 Hcs1 Hshape1 Hdata1)
      as (s2 & calls2 & completed2 & -> & Hcs2 & Hcompleted2 & Hdata2 & Hstrict2).
    exists s2, (calls1 ++ calls2)%list, completed2. repeat split; auto.
    intros Hclear Hjoin. apply Hstrict2.
    + intros Hin. apply Hclear. now right.
    + apply Hstrict1; [| exact Hjoin]. intros ->. apply Hclear. now left.
Qed.

End PanResponderScreen.

(** ** Properties of the screens *)

(** X12.  On [PanResponderSignatureScreen], after any history of touches
    and presses, the signature data the screen keeps is either empty or the
    completed paths of its component joined by single spaces; as long as
    Clear was never pressed it is the latter. *)
Theorem screen_data_is_the_completed_paths (toString : float -> string)
  (window : Window) (history : list PRS.Event) :
  exists s calls,
    PRS.run toString window (PRS.mount) history = Some (s, calls)
    /\ (PRS.signatureData s = ""
        \/ PRS.signatureData s
           = join " " (PR.completedPaths (PR.state (PRS.signature s))))
    /\ (~ In PRS.pressClear history ->
        PRS.signatureData s
        = join " " (PR.completedPaths (PR.state (PRS.signature s)))).
Proof.
  destruct (screen_run_coherent toString window history PRS.mount []
              (Forall_nil _) (or_introl eq_refl) (or_introl eq_refl))
    as (s & calls & completed & Hrun & _ & <- & Hdata & Hstrict).
  exists s, calls. split; [exact Hrun |]. split; [exact Hdata |].
  intros Hclear. now apply Hstrict.
Qed.


(** Two strokes on the screen with a press of Clear in between. *)
Example clear_between_two_strokes :
  PRS.run ExactDecimal.toString {| screenWidth := 400; screenHeight := 800 |}
    PRS.mount
    (map PRS.touchSignature [panGrant (touch 0 0); panMove (touch 10 0); panRelease]
     ++ [PRS.pressClear]
     ++ map PRS.touchSignature [panGrant (touch 3 3); panRelease])
  = Some ({| PRS.signatureData := "M0,0Q0,0 5,0 M3,3";
             PRS.signature := Shapes.atRest ["M0,0Q0,0 5,0"; "M3,3"] |}, []).
Proof. vm_compute. reflexivity. Qed.



(** X16.  On [SignatureComparisonScreen] the four kinds of signature data
    do not interfere: after any sequence of change notifications and
    clear-all presses, the data kept for a kind is that of the latest
    notification for this kind, unless a clear-all came after it, in which
    case it is empty; notifications for other kinds never change it. *)
Theorem comparison_screen_keeps_kinds_apart (type : SCS.Kind)
  (updates : list SCS.Update) (d : SCS.SignatureData) :
  SCS.get type (fold_left SCS.applyUpdate updates d)
  = SCS.latest type (rev updates) (SCS.get type d).
Proof.
  revert d. induction updates as [| u updates IH] using rev_ind; intros d;
    [reflexivity |].
  rewrite fold_left_app, rev_app_distr. cbn [fold_left rev app SCS.latest].
  destruct u as [type' data |]; cbn [SCS.applyUpdate].
  - destruct type, type'; cbn [SCS.kind_eqb SCS.get SCS.handleSignatureChange];
      try reflexivity; apply IH.
  - destruct type; reflexivity.
Qed.

(** ** CustomSignature, several callbacks on one render *)

Section CustomBatches.

Variable toString : float -> string.
Variable props : CustomSignature.Props.

Import CustomSignature CurvePath Shapes.

(** [addPoint] does not read the rendered state: it extends the buffer and
    queues the update that turns the path of the buffer into the path of
    the extended buffer. *)
(** A callback followed by a render is a batch of one callback, and the
    run with a render after every callback is the run of such batches. *)
Lemma dispatchAll_single (c : Component) (ev : Event) :
  dispatchAll toString props c [ev] = dispatch toString props c ev.
Proof.
  unfold dispatchAll, dispatch. cbn [handleAll].
  unfold Handler.bind, Handler.ret.
  destruct (handlerOf toString props (state c) ev _) as [[[] e] |]; reflexivity.
Qed.

Lemma runRenders_single (evs : list Event) (c : Component) :
  runRenders toString props c (map (fun ev => [ev]) evs) = run toString props c evs.
Proof.
  revert c. induction evs as [| ev rest IH]; intros c; [reflexivity |].
  cbn [map runRenders run]. rewrite dispatchAll_single.
  destruct (dispatch toString props c ev) as [[c' called] |]; [| reflexivity].
  now rewrite IH.
Qed.

Lemma custom_addPoint_effects (x0 y0 : float) (e : Effects) :
  exists u,
    addPoint toString x0 y0 e
    = Some (tt, {| ref := ref e ++ [mkPoint x0 y0];
                   updates := updates e ++ [u];
                   calls := calls e |})
    /\ forall completed,
         applyUpdate {| pathData := svg toString (ofPoints (ref e));
                        paths := completed |} u
         = {| pathData := svg toString (ofPoints (ref e ++ [mkPoint x0 y0]));
              paths := completed |}.
Proof.
  destruct e as [points queue called].
  unfold addPoint, Handler.bind, pushRef, Handler.modify, Handler.gets.
  cbn [ref updates calls].
  destruct points as [| prev init _] using rev_ind.
  - cbn. eexists. split; [reflexivity |].
    intros completed. cbn. now rewrite append_empty_r.
  - set (p := mkPoint x0 y0).
    set (current := ((init ++ [prev]) ++ [p])%list).
    assert (Hlen : List.length current = S (S (List.length init)))
      by (unfold current; rewrite !length_app; simpl; lia).
    rewrite Hlen. cbn [Nat.eqb Nat.leb].
    replace (S (S (List.length init)) - 2) with (List.length init) by lia.
    replace (S (S (List.length init)) - 1) with (S (List.length init)) by lia.
    assert (Hprev : nth_error current (List.length init) = Some prev).
    { unfold current. rewrite <- app_assoc, nth_error_app2 by lia.
      now rewrite Nat.sub_diag. }
    assert (Hcur : nth_error current (S (List.length init)) = Some p).
    { unfold current. rewrite nth_error_app2 by (rewrite length_app; simpl; lia).
      rewrite length_app. cbn [List.length].
      replace (S (List.length init) - (List.length init + 1)) with 0 by lia.
      reflexivity. }
    rewrite Hprev, Hcur.
    cbn [Handler.eval Handler.ret enqueue Handler.modify updates ref calls].
    eexists. split; [reflexivity |].
    intros completed. cbn [applyUpdate pathData paths].
    unfold current. rewrite ofPoints_snoc, svg_app.
    cbn [svg svgCommand midpoint p x y]. now rewrite append_empty_r.
Qed.

(** Point updates handled on one render, whatever that render is. *)
Lemma handleAll_updates (st : State) (events : list GestureEvent) (e : Effects) :
  exists us,
    handleAll toString props st (map onUpdate events) e
    = Some (tt, {| ref := ref e ++ map pointOfPan events;
                   updates := updates e ++ us;
                   calls := calls e |})
    /\ forall completed,
         fold_left applyUpdate us
           {| pathData := svg toString (ofPoints (ref e)); paths := completed |}
         = {| pathData := svg toString (ofPoints (ref e ++ map pointOfPan events));
              paths := completed |}.
Proof.
  revert e. induction events as [| ev events IH]; intros e.
  - exists []. cbn. rewrite !app_nil_r. split; [now destruct e | reflexivity].
  - cbn [map handleAll handlerOf]. unfold Handler.bind.
    destruct (custom_addPoint_effects (event_x ev) (event_y ev) e)
      as (u & -> & Hu).
    destruct (IH {| ref := ref e ++ [mkPoint (event_x ev) (event_y ev)];
                    updates := updates e ++ [u]; calls := calls e |})
      as (us & -> & Hus).
    exists (u :: us). cbn [ref updates calls].
    split.
    + rewrite <- !app_assoc. reflexivity.
    + intros completed. cbn [ref] in Hus. cbn [fold_left map].
      rewrite Hu, Hus, <- app_assoc. reflexivity.
Qed.

Lemma dispatchAll_updates (completed : list string) (points : list Point)
  (events : list GestureEvent) :
  dispatchAll toString props (sketch toString completed points)
    (map onUpdate events)
  = Some (sketch toString completed (points ++ map pointOfPan events), []).
Proof.
  unfold dispatchAll.
  destruct (handleAll_updates (state (sketch toString completed points)) events
              {| ref := currentPath (sketch toString completed points);
                 updates := []; calls := [] |})
    as (us & -> & Hus).
  cbn [ref updates calls app sketch state currentPath] in *.
  now rewrite Hus.
Qed.

Lemma runRenders_updates (batches : list (list GestureEvent))
  (completed : list string) (points : list Point) :
  runRenders toString props (sketch toString completed points)
    (map (map onUpdate) batches)
  = Some (sketch toString completed (points ++ map pointOfPan (concat batches)), []).
Proof.
  revert points. induction batches as [| events batches IH]; intros points.
  - cbn. now rewrite app_nil_r.
  - cbn [map runRenders concat]. rewrite dispatchAll_updates, IH.
    rewrite map_app, <- app_assoc. reflexivity.
Qed.

(** Updates and then the end of the gesture, all on one render: what is
    finalized is the path of that render. *)
Lemma dispatchAll_updates_end (completed : list string) (points : list Point)
  (events : list GestureEvent) :
  dispatchAll toString props (sketch toString completed points)
    (map onUpdate events ++ [onEnd])
  = match points with
    | [] => Some (sketch toString completed (map pointOfPan events), [])
    | _ :: _ =>
        Some (sketch toString
                (completed ++ [svg toString (ofPoints points)]) [],
              notification (onSignatureChange props)
                (join " " (completed ++ [svg toString (ofPoints points)])))
    end.
Proof.
  unfold dispatchAll.
  assert (Hall : forall st evs evs' e,
    handleAll toString props st (evs ++ evs') e
    = match handleAll toString props st evs e with
      | Some (_, e') => handleAll toString props st evs' e'
      | None => None
      end).
  { intros st evs evs'. induction evs as [| ev evs IH]; intros e; [reflexivity |].
    cbn [app handleAll]. unfold Handler.bind.
    destruct (handlerOf toString props st ev e) as [[[] e1] |]; [apply IH | reflexivity]. }
  rewrite Hall.
  destruct (handleAll_updates (state (sketch toString completed points)) events
              {| ref := currentPath (sketch toString completed points);
                 updates := []; calls := [] |})
    as (us & -> & Hus).
  cbn [ref updates calls app currentPath sketch] in Hus.
  cbn [ref updates calls app].
  cbn [handleAll handlerOf]. unfold Handler.bind, finalizePath.
  cbn [sketch state pathData paths currentPath].
  destruct points as [| first rest].
  - cbn [ofPoints svg truthy String.eqb negb Handler.ret app].
    cbn [ref updates calls]. specialize (Hus completed).
    cbn [app ofPoints svg] in Hus. now rewrite Hus.
  - rewrite stroke_path_truthy.
    unfold Handler.bind, enqueue, callOnSignatureChange, setRef, Handler.modify,
      notification.
    destruct (onSignatureChange props); cbn [Handler.ret ref updates calls];
      rewrite !fold_left_app, Hus; reflexivity.
Qed.

End CustomBatches.

(** X5.  The path [CustomSignature] builds for the points of a stroke does
    not depend on how its point updates fall between renders: handled in
    any batches, they leave the path data and the buffer that the run with
    a render after every update leaves, and these are the current path and
    the buffered points of [PanResponderSignature] after a start and moves
    at the same points. *)
Theorem custom_path_does_not_depend_on_batching (toString : float -> string)
  (props : CS.Props) (panProps : PR.Props) (completed completed' : list string)
  (batches : list (list CS.GestureEvent))
  (first : PR.GestureResponderEvent) (moves : list PR.GestureResponderEvent) :
  map pointOfPan (concat batches) = map pointOfTouch (first :: moves) ->
  exists c c',
    CS.runRenders toString props (Shapes.sketch toString completed [])
      (map (map CS.onUpdate) batches)
    = Some (c, [])
    /\ CS.run toString props (Shapes.sketch toString completed [])
         (map CS.onUpdate (concat batches))
       = Some (c, [])
    /\ PR.run toString panProps (Shapes.atRest completed')
         (PR.onPanResponderGrant first :: map PR.onPanResponderMove moves)
       = Some (c', [])
    /\ CS.pathData (CS.state c) = PR.currentPath (PR.state c')
    /\ CS.currentPath c = PR.currentPoints c'
    /\ PR.pointsToSVGPath toString (CS.currentPath c)
       = Some (CS.pathData (CS.state c)).
Proof.
  intros Hpoints.
  exists (Shapes.sketch toString completed (map pointOfPan (concat batches))),
    (Shapes.drawing toString completed' (map pointOfTouch (first :: moves))).
  split; [apply (runRenders_updates toString props batches completed []) |].
  split; [apply (run_updates toString props (concat batches) completed []) |].
  split; [cbn [PR.run]; rewrite dispatch_grant, run_moves; reflexivity |].
  cbn [Shapes.sketch Shapes.drawing CS.state CS.pathData CS.currentPath
       PR.state PR.currentPath PR.currentPoints].
  rewrite Hpoints. repeat split. apply pointsToSVGPath_commands.
Qed.

(** Three points, the first two handled on one render. *)
Lemma custom_path_does_not_depend_on_batching_witness :
  map pointOfPan (concat [[pan 0 0; pan 10 0]; [pan 10 10]])
  = map pointOfTouch [touch 0 0; touch 10 0; touch 10 10]
  /\ exists c c',
       CS.runRenders ExactDecimal.toString {| CS.onSignatureChange := true |}
         CS.mount
         [[CS.onUpdate (pan 0 0); CS.onUpdate (pan 10 0)]; [CS.onUpdate (pan 10 10)]]
       = Some (c, [])
       /\ CS.run ExactDecimal.toString {| CS.onSignatureChange := true |} CS.mount
            [CS.onUpdate (pan 0 0); CS.onUpdate (pan 10 0); CS.onUpdate (pan 10 10)]
          = Some (c, [])
       /\ PR.run ExactDecimal.toString {| PR.onSignatureChange := true |} PR.mount
            [PR.onPanResponderGrant (touch 0 0); PR.onPanResponderMove (touch 10 0);
             PR.onPanResponderMove (touch 10 10)]
          = Some (c', [])
       /\ CS.pathData (CS.state c) = PR.currentPath (PR.state c')
       /\ CS.currentPath c = PR.currentPoints c'
       /\ PR.pointsToSVGPath ExactDecimal.toString (CS.currentPath c)
          = Some (CS.pathData (CS.state c)).
Proof.
  split; [reflexivity |].
  exact (custom_path_does_not_depend_on_batching ExactDecimal.toString
           {| CS.onSignatureChange := true |} {| PR.onSignatureChange := true |}
           [] [] [[pan 0 0; pan 10 0]; [pan 10 10]]
           (touch 0 0) [touch 10 0; touch 10 10] eq_refl).
Defined.

(** X15.  Clear on [GestureHandlerSignatureScreen] does not clear its
    [CustomSignature]: the press empties the screen's signature data and
    leaves the component as it is, so when the gesture then ends on a
    render that shows a path in progress, the screen's signature data is
    again every path completed before, followed by that path. *)
Theorem gesture_screen_clear_does_not_clear_the_component
  (toString : float -> string) (window : Window) (s : GHS.Screen) :
  truthy (CS.pathData (CS.state (GHS.signature s))) = true ->
  GHS.dispatch toString window s GHS.pressClear
  = Some ({| GHS.signatureData := ""; GHS.signature := GHS.signature s |}, [])
  /\ GHS.dispatch toString window
       {| GHS.signatureData := ""; GHS.signature := GHS.signature s |}
       (GHS.gesture CS.onEnd)
     = Some ({| GHS.signatureData :=
                  join " " (CS.paths (CS.state (GHS.signature s))
                            ++ [CS.pathData (CS.state (GHS.signature s))]);
                GHS.signature :=
                  {| CS.state :=
                       {| CS.pathData := "";
                          CS.paths :=
                            (CS.paths (CS.state (GHS.signature s))
                             ++ [CS.pathData (CS.state (GHS.signature s))])%list |};
                     CS.currentPath := [] |} |}, []).
Proof.
  intros Hpath. split; [reflexivity |].
  cbn [GHS.dispatch GHS.signature GHS.signatureData].
  rewrite dispatch_end_any, Hpath. reflexivity.
Qed.

(** Clear pressed during the second stroke of a drawing. *)
Lemma gesture_screen_clear_does_not_clear_the_component_witness :
  truthy "M0,0Q0,0 5,0" = true
  /\ GHS.dispatch ExactDecimal.toString {| screenWidth := 400; screenHeight := 800 |}
       {| GHS.signatureData := "";
          GHS.signature :=
            {| CS.state := {| CS.pathData := "M0,0Q0,0 5,0"; CS.paths := ["M1,1"] |};
               CS.currentPath := [mkPoint 0 0; mkPoint 10 0] |} |}
       (GHS.gesture CS.onEnd)
     = Some ({| GHS.signatureData := "M1,1 M0,0Q0,0 5,0";
                GHS.signature :=
                  {| CS.state := {| CS.pathData := "";
                                    CS.paths := ["M1,1"; "M0,0Q0,0 5,0"] |};
                     CS.currentPath := [] |} |}, []).
Proof.
  split; [reflexivity |].
  exact (proj2 (gesture_screen_clear_does_not_clear_the_component
                  ExactDecimal.toString {| screenWidth := 400; screenHeight := 800 |}
                  {| GHS.signatureData := "M1,1";
                     GHS.signature :=
                       {| CS.state := {| CS.pathData := "M0,0Q0,0 5,0";
                                         CS.paths := ["M1,1"] |};
                          CS.currentPath := [mkPoint 0 0; mkPoint 10 0] |} |}
                  eq_refl)).
Defined.

(** X17.  In [PanResponderSignature] a stroke is committed at most once:
    whatever the state of the component, after a release or a termination
    a second one changes nothing and calls nothing, so no path is added
    twice and no notification is repeated. *)
Theorem second_end_event_is_ignored (toString : float -> string)
  (props : PR.Props) (c : PR.Component) (cancelled cancelled' : bool) :
  exists c' called,
    PR.dispatch toString props c (strokeEnd cancelled) = Some (c', called)
    /\ PR.dispatch toString props c' (strokeEnd cancelled') = Some (c', []).
Proof.
  rewrite (endStroke_dispatch toString props c _ (strokeEnd_cases cancelled)).
  destruct (negb _ || _) eqn:Hguard.
  - exists c, []. split; [reflexivity |].
    rewrite (endStroke_dispatch toString props c _ (strokeEnd_cases cancelled')).
    now rewrite Hguard.
  - eexists _, _. split; [reflexivity |].
    now rewrite (endStroke_dispatch toString props _ _ (strokeEnd_cases cancelled')).
Qed.

(** X18.  In [CustomSignature] the end of a gesture finalizes the path of
    the render its handler belongs to, not the path of the buffer.  When
    the updates of a stroke and its end are handled before the component
    renders again: if the render shows no path, nothing is finalized and
    nothing is called, and the points stay buffered, so that the updates
    of the next gesture extend the same path; if the render shows a path,
    that path is completed and notified without the points added since,
    and these points are dropped. *)
Theorem custom_end_finalizes_the_rendered_path (toString : float -> string)
  (props : CS.Props) (completed : list string) :
  (forall events,
     CS.dispatchAll toString props (Shapes.sketch toString completed [])
       (map CS.onUpdate events ++ [CS.onEnd])
     = Some (Shapes.sketch toString completed (map pointOfPan events), []))
  /\ (forall events events',
        CS.runRenders toString props (Shapes.sketch toString completed [])
          [(map CS.onUpdate events ++ [CS.onEnd])%list; map CS.onUpdate events']
        = Some (Shapes.sketch toString completed
                  (map pointOfPan events ++ map pointOfPan events'), []))
  /\ (forall first rest events,
        CS.dispatchAll toString props
          (Shapes.sketch toString completed (first :: rest))
          (map CS.onUpdate events ++ [CS.onEnd])
        = Some (Shapes.sketch toString
                  (completed
                   ++ [CurvePath.svg toString (CurvePath.ofPoints (first :: rest))]) [],
                notification (CS.onSignatureChange props)
                  (join " "
                     (completed
                      ++ [CurvePath.svg toString
                            (CurvePath.ofPoints (first :: rest))])))).
Proof.
  split; [| split].
  - intros events.
    apply (dispatchAll_updates_end toString props completed [] events).
  - intros events events'. cbn [CS.runRenders].
    rewrite (dispatchAll_updates_end toString props completed [] events).
    rewrite dispatchAll_updates. reflexivity.
  - intros first rest events.
    apply (dispatchAll_updates_end toString props completed (first :: rest) events).
Qed.

(** Two points and the end of the gesture handled on the first render;
    and a third point and the end handled on the render of the first two. *)
Example end_on_the_render_of_the_start :
  CS.dispatchAll ExactDecimal.toString {| CS.onSignatureChange := true |} CS.mount
    [CS.onUpdate (pan 0 0); CS.onUpdate (pan 10 0); CS.onEnd]
  = Some ({| CS.state := {| CS.pathData := "M0,0Q0,0 5,0"; CS.paths := [] |};
             CS.currentPath := [mkPoint 0 0; mkPoint 10 0] |}, [])
  /\ CS.runRenders ExactDecimal.toString {| CS.onSignatureChange := true |} CS.mount
       [[CS.onUpdate (pan 0 0); CS.onUpdate (pan 10 0)];
        [CS.onUpdate (pan 10 10); CS.onEnd]]
     = Some ({| CS.state := {| CS.pathData := ""; CS.paths := ["M0,0Q0,0 5,0"] |};
                CS.currentPath := [] |}, ["M0,0Q0,0 5,0"]).
Proof. split; vm_compute; reflexivity. Qed.

(** X19.  In [CustomSignature] two ends of a gesture handled on one render
    that shows a path both finalize it: the path is added to the completed
    paths twice, and [onSignatureChange] is called twice with the same
    string, which holds the path once. *)
Theorem custom_two_ends_on_one_render_commit_twice (toString : float -> string)
  (props : CS.Props) (c : CS.Component) :
  truthy (CS.pathData (CS.state c)) = true ->
  CS.dispatchAll toString props c [CS.onEnd; CS.onEnd]
  = Some ({| CS.state :=
               {| CS.pathData := "";
                  CS.paths :=
                    (CS.paths (CS.state c)
                     ++ [CS.pathData (CS.state c); CS.pathData (CS.state c)])%list |};
             CS.currentPath := [] |},
          (notification (CS.onSignatureChange props)
             (join " " (CS.paths (CS.state c) ++ [CS.pathData (CS.state c)]))
           ++ notification (CS.onSignatureChange props)
                (join " " (CS.paths (CS.state c) ++ [CS.pathData (CS.state c)])))%list).
Proof.
  intros Hpath. destruct c as [[data completed] points].
  cbn [CS.state CS.pathData CS.paths] in *.
  unfold CS.dispatchAll. cbn [CS.handleAll CS.handlerOf CS.state CS.currentPath].
  unfold CS.finalizePath. cbn [CS.pathData CS.paths]. rewrite Hpath.
  unfold Handler.bind, CS.enqueue, CS.callOnSignatureChange, CS.setRef,
    Handler.modify, Handler.ret, notification.
  destruct (CS.onSignatureChange props); cbn; rewrite <- app_assoc; reflexivity.
Qed.

(** Two ends on the render of a two-point stroke. *)
Lemma custom_two_ends_on_one_render_commit_twice_witness :
  truthy "M0,0Q0,0 5,0" = true
  /\ CS.dispatchAll ExactDecimal.toString {| CS.onSignatureChange := true |}
       {| CS.state := {| CS.pathData := "M0,0Q0,0 5,0"; CS.paths := ["M1,1"] |};
          CS.currentPath := [mkPoint 0 0; mkPoint 10 0] |}
       [CS.onEnd; CS.onEnd]
     = Some ({| CS.state :=
                  {| CS.pathData := "";
                     CS.paths := ["M1,1"; "M0,0Q0,0 5,0"; "M0,0Q0,0 5,0"] |};
                CS.currentPath := [] |},
             ["M1,1 M0,0Q0,0 5,0"; "M1,1 M0,0Q0,0 5,0"]).
Proof.
  split; [reflexivity |].
  exact (custom_two_ends_on_one_render_commit_twice ExactDecimal.toString
           {| CS.onSignatureChange := true |}
           {| CS.state := {| CS.pathData := "M0,0Q0,0 5,0"; CS.paths := ["M1,1"] |};
              CS.currentPath := [mkPoint 0 0; mkPoint 10 0] |}
           eq_refl).
Defined.
